(** * Document structure analyser: sampling plan, header extraction, sections

    A shallow embedding of [scripts/doc_structure.py].  Python integers are
    unbounded, so line and page counts are [Z]; [//] is floor division and
    raises on a zero divisor, which is the only primitive of the sampling
    arithmetic that can raise.  Text is a list of characters with code
    points below 256; the character classes used by the regular expressions
    and by the [str] predicates are Python's on that range. *)

From Stdlib Require Import ZArith List String Ascii Bool Arith Lia Sorted.
From Stdlib Require Import DecimalString DecimalZ.
Import ListNotations.
Open Scope Z_scope.

(** ** Outcomes of evaluating Python code *)

Inductive exn : Type :=
| ZeroDivisionError
| ValueError
| SystemExit (status : Z).

Inductive outcome (A : Type) : Type :=
| Returns (a : A)
| Raises (e : exn).

Arguments Returns {A} a.
Arguments Raises {A} e.

Definition bind {A B : Type} (c : outcome A) (k : A -> outcome B) : outcome B :=
  match c with
  | Returns a => k a
  | Raises e => Raises e
  end.

Notation "x <- c ;; k" := (bind c (fun x => k))
  (at level 61, c at next level, right associativity).

(** [a // b] *)
Definition floordiv (a b : Z) : outcome Z :=
  if b =? 0 then Raises ZeroDivisionError else Returns (a / b).

(** [range(n)] *)
Definition range (n : nat) : list Z := map Z.of_nat (seq 0 n).

(** ** Sampling points *)

Definition Window : Type := (Z * Z)%type.

(** The [sampling_points] dictionary; the keys ['25_percent'], ['50_percent'],
    ['75_percent'] and ['end'] are renamed to legal identifiers. *)
Record SamplingPlan : Type := mkPlan {
  beginning : Window;
  pct25 : Window;
  pct50 : Window;
  pct75 : Window;
  end_ : Window;
  chunks : list Window
}.

(** Lines 126-137 of [analyze_text_structure], as a function of
    [total_lines]. *)
Definition sampling_points (total_lines : Z) : outcome SamplingPlan :=
  q6 <- floordiv total_lines 6 ;;
  let chunk_size := Z.max 1 q6 in
  b <- (if total_lines >? 10
        then q10 <- floordiv total_lines 10 ;; Returns (1, Z.min q10 100)
        else Returns (1, total_lines)) ;;
  s25 <- floordiv total_lines 4 ;;
  e25 <- floordiv total_lines 4 ;;
  s50 <- floordiv total_lines 2 ;;
  e50 <- floordiv total_lines 2 ;;
  s75 <- floordiv (3 * total_lines) 4 ;;
  e75 <- floordiv (3 * total_lines) 4 ;;
  t10 <- floordiv total_lines 10 ;;
  Returns {|
    beginning := b;
    pct25 := (s25, Z.min total_lines (e25 + 50));
    pct50 := (s50, Z.min total_lines (e50 + 50));
    pct75 := (s75, Z.min total_lines (e75 + 50));
    end_ := (Z.max 1 (total_lines - t10), total_lines);
    chunks :=
      if total_lines <? 6 then [(1, total_lines)]
      else map (fun i => (i * chunk_size + 1,
                          Z.min ((i + 1) * chunk_size) total_lines))
               (range 6)
  |}.

(** Lines 164-175 (and the identical 194-205) of [analyze_pdf_structure], as a
    function of [total_pages]. *)
Definition pdf_sampling_points (total_pages : Z) : outcome SamplingPlan :=
  q6 <- floordiv total_pages 6 ;;
  let chunk_size := Z.max 1 q6 in
  b <- (if total_pages >? 10
        then q10 <- floordiv total_pages 10 ;; Returns (1, Z.max 1 q10)
        else Returns (1, total_pages)) ;;
  s25 <- floordiv total_pages 4 ;;
  e25 <- floordiv total_pages 4 ;;
  s50 <- floordiv total_pages 2 ;;
  e50 <- floordiv total_pages 2 ;;
  s75 <- floordiv (3 * total_pages) 4 ;;
  e75 <- floordiv (3 * total_pages) 4 ;;
  t10 <- floordiv total_pages 10 ;;
  Returns {|
    beginning := b;
    pct25 := (s25, Z.min total_pages (e25 + 5));
    pct50 := (s50, Z.min total_pages (e50 + 5));
    pct75 := (s75, Z.min total_pages (e75 + 5));
    end_ := (Z.max 1 (total_pages - t10), total_pages);
    chunks :=
      if total_pages <? 6 then [(1, total_pages)]
      else map (fun i => (i * chunk_size + 1,
                          Z.min ((i + 1) * chunk_size) total_pages))
               (range 6)
  |}.

(** The five named windows of a plan, in dictionary order. *)
Definition named_windows (p : SamplingPlan) : list Window :=
  [beginning p; pct25 p; pct50 p; pct75 p; end_ p].

(** A position [k] lies in the inclusive window [w]. *)
Definition in_window (k : Z) (w : Window) : Prop := fst w <= k <= snd w.

(** The window [w] is a valid 1-indexed range inside [[1, total]]. *)
Definition window_ok (total : Z) (w : Window) : Prop :=
  1 <= fst w /\ fst w <= snd w /\ snd w <= total.

(** Consecutive windows touch: each one ends just before the next starts. *)
Fixpoint contiguous (ws : list Window) : Prop :=
  match ws with
  | w1 :: ((w2 :: _) as rest) => snd w1 + 1 = fst w2 /\ contiguous rest
  | _ => True
  end.

(** ** Text and the [str] methods used by the analyser *)

Definition str : Type := list ascii.

(** A string literal of the source. *)
Definition lit (x : string) : str := list_ascii_of_string x.

(** [len(x)] *)
Definition len {A : Type} (l : list A) : Z := Z.of_nat (List.length l).

Definition newline : ascii := ascii_of_nat 10.

Definition code (c : ascii) : N := N_of_ascii c.

Definition between (lo hi : N) (c : ascii) : bool :=
  ((lo <=? code c) && (code c <=? hi))%N.

(** [c.isspace()], also the regular expression class [\s]: TAB, LF, VT, FF,
    CR, the separators FS, GS, RS, US, the space, NEL (133) and the
    no-break space (160). *)
Definition isspace (c : ascii) : bool :=
  between 9 13 c || between 28 32 c || between 133 133 c || between 160 160 c.

(** The regular expression class [\d]. *)
Definition isdigit (c : ascii) : bool := between 48 57 c.

(** The range [A-Z] of a regular expression. *)
Definition isAZ (c : ascii) : bool := between 65 90 c.

(** [c.isupper()]: A-Z and the capital letters 192-214 and 216-222. *)
Definition isupper_char (c : ascii) : bool :=
  between 65 90 c || between 192 214 c || between 216 222 c.
(** [c.islower()]: a-z, the ordinal indicators 170 and 186, the micro sign
    181, and the small letters 223-246 and 248-255. *)
Definition islower_char (c : ascii) : bool :=
  between 97 122 c || between 170 170 c || between 181 181 c
  || between 186 186 c || between 223 246 c || between 248 255 c.
(** [c.isalpha()]: below 256 every letter is upper-case or lower-case. *)
Definition isalpha_char (c : ascii) : bool := isupper_char c || islower_char c.

Fixpoint dropwhile {A : Type} (p : A -> bool) (l : list A) : list A :=
  match l with
  | [] => []
  | c :: tl => if p c then dropwhile p tl else l
  end.

Definition lstrip (x : str) : str := dropwhile isspace x.
Definition rstrip (x : str) : str := rev (dropwhile isspace (rev x)).

(** [x.strip()] *)
Definition strip (x : str) : str := rstrip (lstrip x).

(** [x.rstrip(':')] *)
Definition rstrip_char (c : ascii) (x : str) : str :=
  rev (dropwhile (Ascii.eqb c) (rev x)).

(** [x.isupper()]: there is a cased character and no cased character is
    lower-case. *)
Definition isupper (x : str) : bool :=
  existsb isalpha_char x && forallb (fun c => negb (islower_char c)) x.

(** [x.isalpha()]: non-empty and all alphabetic. *)
Definition isalpha (x : str) : bool :=
  match x with
  | [] => false
  | _ => forallb isalpha_char x
  end.

(** [x.endswith(c)] for a one-character suffix. *)
Definition endswith (c : ascii) (x : str) : bool :=
  match rev x with
  | d :: _ => Ascii.eqb d c
  | [] => false
  end.

(** [x[:-1]] *)
Definition drop_last (x : str) : str := removelast x.

(** [x.replace(c, '')] for a one-character [c]. *)
Definition remove_char (c : ascii) (x : str) : str :=
  filter (fun d => negb (Ascii.eqb d c)) x.

(** [x.split(sep)] for a one-character separator: always at least one
    piece. *)
Fixpoint split (sep : ascii) (x : str) : list str :=
  match x with
  | [] => [[]]
  | c :: tl =>
      if Ascii.eqb c sep then [] :: split sep tl
      else match split sep tl with
           | piece :: pieces => (c :: piece) :: pieces
           | [] => [[c]]
           end
  end.

(** [x.split()]: the maximal runs of non-whitespace characters; [cur] is the
    run being read, reversed. *)
Fixpoint split_whitespace (cur : str) (x : str) : list str :=
  match x with
  | [] => match cur with [] => [] | _ => [rev cur] end
  | c :: tl =>
      if isspace c
      then match cur with
           | [] => split_whitespace [] tl
           | _ => rev cur :: split_whitespace [] tl
           end
      else split_whitespace (c :: cur) tl
  end.

(** [enumerate(l)] *)
Definition enumerate {A : Type} (l : list A) : list (Z * A) :=
  combine (range (List.length l)) l.

(** ** Regular expressions

    The fragment of Python's [re] that the analyser uses, with its matching
    discipline: alternatives are tried left to right, repetitions are greedy
    and give characters back on failure, and the first complete match wins. *)

Inductive regex : Type :=
| Empty
| Chr (p : ascii -> bool)
| Cat (r1 r2 : regex)
| Alt (r1 r2 : regex)
| Star (r : regex)
| Grp (n : nat) (r : regex)
| Bol
| Eol.

Definition Plus (r : regex) : regex := Cat r (Star r).
Definition Opt (r : regex) : regex := Alt r Empty.

Fixpoint times (n : nat) (r : regex) : regex :=
  match n with
  | O => Empty
  | S n' => Cat r (times n' r)
  end.

Fixpoint upto (n : nat) (r : regex) : regex :=
  match n with
  | O => Empty
  | S n' => Opt (Cat r (upto n' r))
  end.

(** [r{lo,hi}] *)
Definition Rep (lo hi : nat) (r : regex) : regex :=
  Cat (times lo r) (upto (hi - lo) r).

Definition Seq (rs : list regex) : regex := fold_right Cat Empty rs.

Definition Lit (x : string) : regex :=
  Seq (map (fun c => Chr (Ascii.eqb c)) (lit x)).

(** [.]: any character but the newline. *)
Definition dot : regex := Chr (fun c => negb (Ascii.eqb c newline)).
(** [[^c]] *)
Definition other_than (c : ascii) : regex := Chr (fun d => negb (Ascii.eqb d c)).
(** [[abc]] *)
Definition one_of (x : string) : regex :=
  Chr (fun c => existsb (Ascii.eqb c) (lit x)).
Definition space : regex := Chr isspace.
Definition digit : regex := Chr isdigit.
Definition capital : regex := Chr isAZ.

(** The matcher's position: the character just read, if any, and the text
    still to read. *)
Definition cursor : Type := (option ascii * str)%type.

Definition captures : Type := list (nat * str).

Fixpoint group (n : nat) (caps : captures) : str :=
  match caps with
  | [] => []
  | (i, x) :: rest => if Nat.eqb i n then x else group n rest
  end.

Definition at_bol (multiline : bool) (cur : cursor) : bool :=
  match fst cur with
  | None => true
  | Some c => multiline && Ascii.eqb c newline
  end.

Definition at_eol (multiline : bool) (cur : cursor) : bool :=
  match snd cur with
  | [] => true
  | c :: tl =>
      Ascii.eqb c newline && (multiline || match tl with [] => true | _ => false end)
  end.

(** One greedy repetition: run [step] as long as it consumes input, and on
    failure of what follows give the last round back.  A repetition runs at
    most once per remaining character, since every round must consume
    input. *)
Fixpoint star_loop
    (step : cursor -> captures -> (cursor -> captures -> option captures)
            -> option captures)
    (k : cursor -> captures -> option captures)
    (fuel : nat) (cur : cursor) (caps : captures) : option captures :=
  match fuel with
  | O => k cur caps
  | S fuel' =>
      match step cur caps
              (fun cur' caps' =>
                 if (List.length (snd cur') <? List.length (snd cur))%nat
                 then star_loop step k fuel' cur' caps'
                 else None) with
      | Some res => Some res
      | None => k cur caps
      end
  end.

(** Backtracking matcher in continuation style: [k] is the rest of the
    pattern. *)
Fixpoint rmatch (multiline : bool) (r : regex) (cur : cursor) (caps : captures)
    (k : cursor -> captures -> option captures) {struct r} : option captures :=
  match r with
  | Empty => k cur caps
  | Chr p =>
      match snd cur with
      | c :: tl => if p c then k (Some c, tl) caps else None
      | [] => None
      end
  | Cat r1 r2 =>
      rmatch multiline r1 cur caps
        (fun cur' caps' => rmatch multiline r2 cur' caps' k)
  | Alt r1 r2 =>
      match rmatch multiline r1 cur caps k with
      | Some res => Some res
      | None => rmatch multiline r2 cur caps k
      end
  | Star r1 =>
      star_loop (rmatch multiline r1) k (List.length (snd cur)) cur caps
  | Grp n r1 =>
      rmatch multiline r1 cur caps
        (fun cur' caps' =>
           k cur' ((n, firstn (List.length (snd cur) - List.length (snd cur'))
                         (snd cur)) :: caps'))
  | Bol => if at_bol multiline cur then k cur caps else None
  | Eol => if at_eol multiline cur then k cur caps else None
  end.

Definition accept : cursor -> captures -> option captures :=
  fun _ caps => Some caps.

(** [re.match(r, x)] *)
Definition re_match (r : regex) (x : str) : option captures :=
  rmatch false r (None, x) [] accept.

Fixpoint search_from (multiline : bool) (r : regex) (prev : option ascii)
    (x : str) : option captures :=
  match rmatch multiline r (prev, x) [] accept with
  | Some caps => Some caps
  | None =>
      match x with
      | [] => None
      | c :: tl => search_from multiline r (Some c) tl
      end
  end.

(** [re.search(r, x)] and [re.search(r, x, re.MULTILINE)] *)
Definition re_search (r : regex) (x : str) : option captures :=
  search_from false r None x.
Definition re_search_multiline (r : regex) (x : str) : option captures :=
  search_from true r None x.

Definition is_match (m : option captures) : bool :=
  match m with Some _ => true | None => false end.

(** The position after the longest run of characters satisfying [p]. *)
Fixpoint skip (p : ascii -> bool) (prev : option ascii) (x : str) : cursor :=
  match x with
  | c :: tl => if p c then skip p (Some c) tl else (prev, x)
  | [] => (prev, [])
  end.

(** The numbers of the groups of a pattern, and the least and greatest
    numbers of characters a match of it can take ([None]: no bound). *)
Fixpoint groups (r : regex) : list nat :=
  match r with
  | Cat r1 r2 | Alt r1 r2 => groups r1 ++ groups r2
  | Star r1 => groups r1
  | Grp n r1 => n :: groups r1
  | _ => []
  end.

Fixpoint min_len (r : regex) : nat :=
  match r with
  | Chr _ => 1
  | Cat r1 r2 => min_len r1 + min_len r2
  | Alt r1 r2 => Nat.min (min_len r1) (min_len r2)
  | Grp _ r1 => min_len r1
  | _ => 0
  end.

Fixpoint max_len (r : regex) : option nat :=
  match r with
  | Chr _ => Some 1%nat
  | Cat r1 r2 =>
      match max_len r1, max_len r2 with
      | Some a, Some b => Some (a + b)%nat
      | _, _ => None
      end
  | Alt r1 r2 =>
      match max_len r1, max_len r2 with
      | Some a, Some b => Some (Nat.max a b)
      | _, _ => None
      end
  | Star _ => None
  | Grp _ r1 => max_len r1
  | _ => Some 0%nat
  end.

(** What one successful step of the matcher through [r] does: it reads
    [taken] from the text, within the bounds of [r], and changes no group
    but those of [r]. *)
Definition steps (r : regex) (cur : cursor) (caps : captures)
    (taken : str) (cur' : cursor) (caps' : captures) : Prop :=
  snd cur = taken ++ snd cur' /\
  (min_len r <= List.length taken)%nat /\
  (forall b, max_len r = Some b -> (List.length taken <= b)%nat) /\
  (forall n, ~ In n (groups r) -> group n caps' = group n caps).

(** ** The patterns of the source *)

(** The format probes "^#{1,6}\s", "^\\(section|chapter|title)\{" and
    "^Chapter \d|^CHAPTER \d|^\d+\.\s+[A-Z]". *)
Definition markdown_probe : regex :=
  Seq [Bol; Rep 1 6 (Lit "#"); space].

Definition latex_probe : regex :=
  Seq [Bol; Lit "\";
       Grp 1 (Alt (Lit "section") (Alt (Lit "chapter") (Lit "title")));
       Lit "{"].

Definition book_probe : regex :=
  Alt (Seq [Bol; Lit "Chapter "; digit])
      (Alt (Seq [Bol; Lit "CHAPTER "; digit])
           (Seq [Bol; Plus digit; Lit "."; Plus space; capital])).

(** "^(#{1,6})\s+(.+)$" *)
Definition markdown_pattern : regex :=
  Seq [Bol; Grp 1 (Rep 1 6 (Lit "#")); Plus space; Grp 2 (Plus dot); Eol].

(** "\\chapter\{([^}]+)\}", "\\section\{([^}]+)\}" and
    "\\subsection\{([^}]+)\}", with their levels. *)
Definition latex_command (name : string) : regex :=
  Seq [Lit "\"; Lit name; Lit "{"; Grp 1 (Plus (other_than "}")); Lit "}"].

Definition latex_patterns : list (regex * Z) :=
  [(latex_command "chapter", 1);
   (latex_command "section", 2);
   (latex_command "subsection", 3)].

(** The chapter pattern of line 83: [^], the keyword group
    [(Chapter|CHAPTER)], [\s+], the number group [(\d+|[IVXLC]+)], an optional
    [[:\.]], [\s*], and a third group taking [.] any number of times up to
    [$]. *)
Definition book_chapter : regex :=
  Seq [Bol; Grp 1 (Alt (Lit "Chapter") (Lit "CHAPTER")); Plus space;
       Grp 2 (Alt (Plus digit) (Plus (one_of "IVXLC")));
       Opt (one_of ":."); Star space; Grp 3 (Star dot); Eol].

(** "^(\d+)\.\s+([A-Z][^.]+)$" *)
Definition book_numbered : regex :=
  Seq [Bol; Grp 1 (Plus digit); Lit "."; Plus space;
       Grp 2 (Cat capital (Plus (other_than "."))); Eol].

(** "^(\d+\.\d+)\s+(.+)$" *)
Definition book_subsection : regex :=
  Seq [Bol; Grp 1 (Seq [Plus digit; Lit "."; Plus digit]); Plus space;
       Grp 2 (Plus dot); Eol].

Definition book_patterns : list (regex * Z) :=
  [(book_chapter, 1); (book_numbered, 2); (book_subsection, 3)].

(** ** Headers and sections *)

Record Header : Type := mkHeader {
  line : Z;
  level : Z;
  text : str
}.

Record Section : Type := mkSection {
  name : str;
  start_line : Z;
  end_line : Z;
  line_count : Z
}.

(** The probes of lines 40-48, applied when the hint is ['auto']. *)
Definition detect_format (content : str) : string :=
  if is_match (re_search_multiline markdown_probe content) then "markdown"
  else if is_match (re_search_multiline latex_probe content) then "latex"
  else if is_match (re_search_multiline book_probe content) then "book"
  else "plain".

(** The body of the markdown loop for line [i] (0-based). *)
Definition markdown_line (i : Z) (ln : str) : list Header :=
  match re_match markdown_pattern ln with
  | Some m => [{| line := i + 1; level := len (group 1 m);
                  text := strip (group 2 m) |}]
  | None => []
  end.

(** The inner loop of the latex branch: every pattern is searched, none
    stops the loop. *)
Fixpoint latex_line (patterns : list (regex * Z)) (i : Z) (ln : str)
    : list Header :=
  match patterns with
  | [] => []
  | (pattern, lvl) :: rest =>
      match re_search pattern ln with
      | Some m =>
          {| line := i + 1; level := lvl; text := strip (group 1 m) |}
            :: latex_line rest i ln
      | None => latex_line rest i ln
      end
  end.

(** The inner loop of the book branch: the first pattern that matches the
    stripped line appends a header and [break]s. *)
Fixpoint book_line (patterns : list (regex * Z)) (i : Z) (ln : str)
    : list Header :=
  match patterns with
  | [] => []
  | (pattern, lvl) :: rest =>
      match re_match pattern (strip ln) with
      | Some m =>
          let t := if lvl >? 1 then group 2 m
                   else group 1 m ++ lit " " ++ group 2 m ++ lit " " ++ group 3 m in
          [{| line := i + 1; level := lvl; text := strip t |}]
      | None => book_line rest i ln
      end
  end.

(** The body of the plain loop. *)
Definition plain_line (i : Z) (ln : str) : list Header :=
  let stripped := strip ln in
  if negb (len stripped =? 0)
     && ((isupper stripped && (len stripped >? 3) && (len stripped <? 100))
         || (endswith ":" stripped && (len stripped <? 80)
             && isalpha (remove_char " " (drop_last stripped))))
  then [{| line := i + 1;
           level := if isupper stripped then 1 else 2;
           text := rstrip_char ":" stripped |}]
  else [].

(** A [for i, line in enumerate(lines)] loop appending to [headers]. *)
Definition scan_lines (body : Z -> str -> list Header) (lines : list str)
    : list Header :=
  flat_map (fun il => body (fst il) (snd il)) (enumerate lines).

(** Lines 50-111: the branch on [format_hint]; the last branch takes every
    other hint. *)
Definition find_headers (format_hint : string) (lines : list str) : list Header :=
  if String.eqb format_hint "markdown" then scan_lines markdown_line lines
  else if String.eqb format_hint "latex" then scan_lines (latex_line latex_patterns) lines
  else if String.eqb format_hint "book" then scan_lines (book_line book_patterns) lines
  else scan_lines plain_line lines.

(** Lines 113-123. *)
Definition build_sections (headers : list Header) (total_lines : Z) : list Section :=
  map (fun ih =>
         let i := fst ih in
         let header := snd ih in
         let start := line header in
         let end' := if i + 1 <? len headers
                     then line (nth (Z.to_nat (i + 1)) headers header) - 1
                     else total_lines in
         {| name := text header; start_line := start; end_line := end';
            line_count := end' - start + 1 |})
      (enumerate headers).

(** The sections read off the header list from left to right: each header
    opens a section that the next header, or the end of the document,
    closes. *)
Fixpoint sections_from (hs : list Header) (total_lines : Z) : list Section :=
  match hs with
  | [] => []
  | h :: rest =>
      let end' := match rest with
                  | h' :: _ => line h' - 1
                  | [] => total_lines
                  end in
      {| name := text h; start_line := line h; end_line := end';
         line_count := end' - line h + 1 |} :: sections_from rest total_lines
  end.

(** Line [k] belongs to section [s]. *)
Definition in_section (k : Z) (s : Section) : Prop :=
  start_line s <= k <= end_line s.

(** Header [h] is not below header [h'] in the document. *)
Definition by_line (h h' : Header) : Prop := line h <= line h'.

(** A loop body that numbers its headers with the 1-based line number. *)
Definition line_numbered (body : Z -> str -> list Header) : Prop :=
  forall i ln h, In h (body i ln) -> line h = i + 1.

(** ** The analysis *)

Record StructureReport : Type := mkReport {
  filepath : string;
  format : string;
  total_lines : Z;
  total_chars : Z;
  total_words : Z;
  headers : list Header;
  sections : list Section;
  sampling : SamplingPlan
}.

(** What [analyze_text_structure] returns: the error dictionary or the
    report. *)
Inductive analysis : Type :=
| ErrorResult (message : string)
| Report (r : StructureReport).

(** The format in force after lines 39-48. *)
Definition effective_format (format_hint : string) (content : str) : string :=
  if String.eqb format_hint "auto" then detect_format content else format_hint.

(** The local variables of [analyze_text_structure] when control reaches the
    [return] of line 139: [lines], [total_lines], [total_chars],
    [total_words], [format_hint], [headers], [sections] and
    [sampling_points]. *)
Record Locals : Type := mkLocals {
  loc_lines : list str;
  loc_total_lines : Z;
  loc_total_chars : Z;
  loc_total_words : Z;
  loc_format_hint : string;
  loc_headers : list Header;
  loc_sections : list Section;
  loc_sampling_points : SamplingPlan
}.

(** Lines 34-137: the body of [analyze_text_structure] on the content read,
    up to the [return]. *)
Definition analyze_text_locals (content : str) (format_hint : string)
    : outcome Locals :=
  let lines := split newline content in
  let total := len lines in
  let fmt := effective_format format_hint content in
  let hs := find_headers fmt lines in
  let ss := build_sections hs total in
  plan <- sampling_points total ;;
  Returns {|
    loc_lines := lines;
    loc_total_lines := total;
    loc_total_chars := len content;
    loc_total_words := len (split_whitespace [] content);
    loc_format_hint := fmt;
    loc_headers := hs;
    loc_sections := ss;
    loc_sampling_points := plan
  |}.

(** Lines 139-148: the dictionary that the [return] statement builds from
    the local variables, with the slices [headers[:50]] and
    [sections[:30]]. *)
Definition returned (path : string) (st : Locals) : StructureReport :=
  {| filepath := path;
     format := loc_format_hint st;
     total_lines := loc_total_lines st;
     total_chars := loc_total_chars st;
     total_words := loc_total_words st;
     headers := firstn 50 (loc_headers st);
     sections := firstn 30 (loc_sections st);
     sampling := loc_sampling_points st |}.

(** [analyze_text_structure]; [file] is what opening and reading [path]
    gives: the decoded content, or the message of the exception caught at
    line 31. *)
Definition analyze_text_structure (path : string) (file : str + string)
    (format_hint : string) : outcome analysis :=
  match file with
  | inr e => Returns (ErrorResult ("Error reading file: " ++ e))
  | inl content =>
      st <- analyze_text_locals content format_hint ;;
      Returns (Report (returned path st))
  end.

(** The [choices] of the [--format] option in [main]. *)
Definition format_choices : list string :=
  ["auto"; "markdown"; "latex"; "book"; "plain"]%string.

(** What the argument parser of [main] makes of the [--format] option: the
    default when it is absent, the value when it is one of the choices, and
    otherwise the parser's error exit, before any analysis runs. *)
Definition parse_format (given : option string) : outcome string :=
  match given with
  | None => Returns "auto"%string
  | Some f =>
      if existsb (String.eqb f) format_choices then Returns f
      else Raises (SystemExit 2)
  end.

(** Header [h] is strictly above header [h'] in the document. *)
Definition strictly_above (h h' : Header) : Prop := line h < line h'.

(** A loop body that appends at most one header per line. *)
Definition one_per_line (body : Z -> str -> list Header) : Prop :=
  forall i ln, (List.length (body i ln) <= 1)%nat.

(** The sum of a list of integers. *)
Definition total_of (l : list Z) : Z := fold_right Z.add 0 l.

(** ** Integers as text, slices *)

(** [str(n)] *)
Definition str_of_Z (n : Z) : str := lit (NilZero.string_of_int (Z.to_int n)).

Definition digit_value (c : ascii) : Z := Z.of_N (code c) - 48.

(** The digits of a base-10 [int()] literal, read left to right: decimal
    digits, with single underscores allowed between two digits.
    [after_digit] tells whether the character just read was a digit. *)
Fixpoint int_digits (acc : Z) (after_digit : bool) (x : str) : option Z :=
  match x with
  | [] => if after_digit then Some acc else None
  | c :: tl =>
      if isdigit c then int_digits (10 * acc + digit_value c) true tl
      else if Ascii.eqb c "_" && after_digit then int_digits acc false tl
      else None
  end.

(** The blanks that [int()] skips around a literal: TAB, LF, VT, FF, CR,
    the space, NEL and the no-break space (the separators FS to US, which
    [.strip()] removes, are not among them). *)
Definition int_blank (c : ascii) : bool :=
  between 9 13 c || between 32 32 c || between 133 133 c || between 160 160 c.

(** [sys.get_int_max_str_digits()]: the interpreter's default limit on the
    digits of a decimal literal given to [int()]; the scripts do not change
    it. *)
Definition int_max_str_digits : Z := 4300.

(** The digits after the sign: too many of them are a [ValueError] as
    well. *)
Definition int_body (x : str) : option Z :=
  if len (filter isdigit x) >? int_max_str_digits then None
  else int_digits 0 false x.

(** [int(x)], with [None] for [ValueError]: surrounding blanks are dropped,
    one sign is allowed, then come the digits. *)
Definition py_int (x : str) : option Z :=
  let s := rev (dropwhile int_blank (rev (dropwhile int_blank x))) in
  match s with
  | c :: tl =>
      if Ascii.eqb c "-" then option_map Z.opp (int_body tl)
      else if Ascii.eqb c "+" then int_body tl
      else int_body s
  | [] => None
  end.

(** The number of digits in [str(n)]. *)
Definition digit_count (n : Z) : Z := len (filter isdigit (str_of_Z n)).

(** [c in x] for a one-character [c]. *)
Definition contains (c : ascii) (x : str) : bool := existsb (Ascii.eqb c) x.

(** [x.split(sep, 1)] for a one-character [sep] that occurs in [x]: the text
    before the first [sep] and the text after it. *)
Fixpoint split_once (sep : ascii) (x : str) : str * str :=
  match x with
  | [] => ([], [])
  | c :: tl =>
      if Ascii.eqb c sep then ([], tl)
      else let (before, after) := split_once sep tl in (c :: before, after)
  end.

(** [x[:n]] and [x[n:]], a negative [n] counting from the end. *)
Definition slice_to {A : Type} (x : list A) (n : Z) : list A :=
  if n <? 0 then firstn (Z.to_nat (len x + n)) x else firstn (Z.to_nat n) x.

Definition slice_from {A : Type} (x : list A) (n : Z) : list A :=
  if n <? 0 then skipn (Z.to_nat (len x + n)) x else skipn (Z.to_nat n) x.

(** [range(start, stop)] *)
Definition range_from (start stop : Z) : list Z :=
  map (fun i => start + Z.of_nat i) (seq 0 (Z.to_nat (stop - start))).

(** ** [scripts/pdf_extract.py]: page ranges *)

(** The body of the [try] of [parse_page_ranges] for one non-empty part;
    [None] is the [ValueError] that the [except] clause catches. *)
Definition parse_part (part : str) : option (Z * Z) :=
  if contains "-" part then
    let (start, end') := split_once "-" part in
    match py_int start with
    | Some s =>
        match py_int end' with
        | Some e => Some (s, e)
        | None => None
        end
    | None => None
    end
  else
    match py_int part with
    | Some page => Some (page, page)
    | None => None
    end.

Definition invalid_range_warning (part : str) : str :=
  lit "Warning: Ignoring invalid page range '" ++ part ++ lit "'".

(** The loop of [parse_page_ranges] over the comma-separated parts, with the
    list [ranges] built so far and the lines printed to the error stream so
    far. *)
Fixpoint parse_parts (parts : list str) (ranges : list (Z * Z))
    (stderr : list str) : list (Z * Z) * list str :=
  match parts with
  | [] => (ranges, stderr)
  | part :: rest =>
      let part := strip part in
      match part with
      | [] => parse_parts rest ranges stderr
      | _ =>
          match parse_part part with
          | Some r => parse_parts rest (ranges ++ [r]) stderr
          | None =>
              parse_parts rest ranges (stderr ++ [invalid_range_warning part])
          end
      end
  end.

(** [parse_page_ranges]: the ranges returned and the warnings printed. *)
Definition parse_page_ranges (ranges_str : str) : list (Z * Z) * list str :=
  parse_parts (split "," ranges_str) [] [].

(** The text [a-b] that the suggested commands pass as [--pages]. *)
Definition render_range (r : Z * Z) : str :=
  str_of_Z (fst r) ++ lit "-" ++ str_of_Z (snd r).

(** [','.join(parts)] *)
Fixpoint join (sep : str) (parts : list str) : str :=
  match parts with
  | [] => []
  | [x] => x
  | x :: rest => x ++ sep ++ join sep rest
  end.

(** ** [scripts/pdf_extract.py]: the pages to read and the extraction loop *)

(** [s.add(p)], the set being kept as a list without repetition. *)
Definition set_add (p : Z) (s : list Z) : list Z :=
  if existsb (Z.eqb p) s then s else p :: s.

(** [sorted(s)] by insertion. *)
Fixpoint insert_sorted (p : Z) (l : list Z) : list Z :=
  match l with
  | [] => [p]
  | q :: tl => if p <=? q then p :: l else q :: insert_sorted p tl
  end.

Definition sorted (l : list Z) : list Z := fold_right insert_sorted [] l.

(** The inner loop of lines 78-80: the pages of one range, cut to the
    document, are added to the set. *)
Definition add_range (total_pages : Z) (pages : list Z) (r : Z * Z) : list Z :=
  fold_left (fun s p => set_add p s)
    (range_from (Z.max 1 (fst r)) (Z.min total_pages (snd r) + 1)) pages.

(** Lines 76-84: the pages of the given ranges in ascending order, or the
    first ten pages when no range is given ([None] or the empty list, both
    false in the test of line 76). *)
Definition pages_to_read (page_ranges : option (list (Z * Z)))
    (total_pages : Z) : list Z :=
  match page_ranges with
  | Some (r :: rs) => sorted (fold_left (add_range total_pages) (r :: rs) [])
  | _ => range_from 1 (Z.min 11 (total_pages + 1))
  end.

(** [l[i]] on a list, a negative [i] counting from the end; [None] is
    [IndexError]. *)
Definition getitem {A : Type} (l : list A) (i : Z) : option A :=
  if i <? 0
  then if - len l <=? i then nth_error l (Z.to_nat (len l + i)) else None
  else nth_error l (Z.to_nat i).

Definition bar : str := repeat "="%char 60.

Definition page_header (page_num total_pages : Z) : list str :=
  [newline :: bar;
   lit "PAGE " ++ str_of_Z page_num ++ lit " of " ++ str_of_Z total_pages;
   bar].

Definition limit_line (max_chars : Z) : str :=
  newline :: lit "[OUTPUT LIMIT REACHED at " ++ str_of_Z max_chars
    ++ lit " chars]".

Definition truncated_mark : str := newline :: lit "[TRUNCATED]".

(** The loop of lines 89-106 over the pages still to read, with the output
    lines and the character count so far; [doc] lists the texts of the
    pages.  [None] is an [IndexError] of the page access. *)
Fixpoint extract_loop (doc : list str) (total_pages max_chars : Z)
    (pages : list Z) (output_lines : list str) (char_count : Z)
    : option (list str * Z) :=
  match pages with
  | [] => Some (output_lines, char_count)
  | page_num :: rest =>
      if char_count >=? max_chars
      then Some (output_lines ++ [limit_line max_chars], char_count)
      else
        match getitem doc (page_num - 1) with
        | None => None
        | Some text =>
            let output_lines :=
              output_lines ++ page_header page_num total_pages in
            let remaining_chars := max_chars - char_count in
            let text := if len text >? remaining_chars
                        then slice_to text remaining_chars ++ truncated_mark
                        else text in
            extract_loop doc total_pages max_chars rest
              (output_lines ++ [text]) (char_count + len text + 100)
        end
  end.

(** Lines 54 and 76-106 of [extract_with_pymupdf]: the output lines and the
    character count before the summary is added. *)
Definition extract_pages (doc : list str) (page_ranges : option (list (Z * Z)))
    (max_chars : Z) : option (list str * Z) :=
  let total_pages := len doc in
  extract_loop doc total_pages max_chars
    (pages_to_read page_ranges total_pages) [] 0.

(** The text of page [p], counted from 1. *)
Definition page_text (doc : list str) (p : Z) : str :=
  nth (Z.to_nat (p - 1)) doc [].

(** ** [scripts/url_fetch.py]: output limits and suggested windows *)

(** The content returned by a fetch and the two entries that the limits add
    to the [info] dictionary. *)
Record Limited : Type := mkLimited {
  limited_content : str;
  start_offset : option Z;
  truncated : bool
}.

Definition truncation_note (max_chars : Z) : str :=
  newline :: newline :: lit "[OUTPUT TRUNCATED at " ++ str_of_Z max_chars
    ++ lit " chars]".

(** Lines 130-139 of [fetch_with_requests], the same as lines 165-174 of
    [fetch_with_curl]. *)
Definition apply_limits (content : str) (max_chars start : Z) : Limited :=
  let content1 := if start >? 0 then slice_from content start else content in
  let offset := if start >? 0 then Some start else None in
  if len content1 >? max_chars
  then {| limited_content := slice_to content1 max_chars
                               ++ truncation_note max_chars;
          start_offset := offset; truncated := true |}
  else {| limited_content := content1; start_offset := offset;
          truncated := false |}.

(** Lines 219-224 of [main]: the [(--start, --max-chars)] pairs of the five
    suggested commands, for a length that is an integer. *)
Definition url_windows (length : Z) : outcome (list (Z * Z)) :=
  m0 <- floordiv length 10 ;;
  s25 <- floordiv length 4 ;;
  m25 <- floordiv length 10 ;;
  s50 <- floordiv length 2 ;;
  m50 <- floordiv length 10 ;;
  s75 <- floordiv (3 * length) 4 ;;
  m75 <- floordiv length 10 ;;
  t10 <- floordiv length 10 ;;
  m_end <- floordiv length 10 ;;
  Returns [(0, m0); (s25, m25); (s50, m50); (s75, m75);
           (length - t10, m_end)].

(** The two entries of the [info] dictionary that [main] reads at line 217;
    [None] is a key that is not there. *)
Record FetchInfo : Type := mkInfo {
  actual_length : option Z;
  content_length : option str
}.

(** The entries as [fetch_with_requests] sets them (lines 110-121): the
    [Content-Length] header of the HEAD response, or ['unknown'], and the
    length of the text received, before any conversion. *)
Definition requests_info (received : str) (header : option str) : FetchInfo :=
  {| actual_length := Some (len received);
     content_length := Some (match header with
                             | Some h => h
                             | None => lit "unknown"
                             end) |}.

(** The entries as [fetch_with_curl] sets them (lines 142 and 158). *)
Definition curl_info (received : str) : FetchInfo :=
  {| actual_length := Some (len received); content_length := None |}.

(** The value of [length] at line 217: an integer or a text. *)
Inductive length_value : Type :=
| IntValue (n : Z)
| StrValue (s : str).

(** Line 217, [info.get('actual_length') or info.get('content_length') or
    'unknown']: zero, the empty text and an absent key are passed over. *)
Definition info_length (info : FetchInfo) : length_value :=
  let otherwise :=
    match content_length info with
    | Some (c :: s) => StrValue (c :: s)
    | _ => StrValue (lit "unknown")
    end in
  match actual_length info with
  | Some n => if n =? 0 then otherwise else IntValue n
  | None => otherwise
  end.

(** [c.isdigit()]: the decimal digits and the superscripts 178, 179 and
    185. *)
Definition isdigit_char (c : ascii) : bool :=
  between 48 57 c || between 178 179 c || between 185 185 c.

(** [x.isdigit()] *)
Definition str_isdigit (x : str) : bool :=
  match x with
  | [] => false
  | _ => forallb isdigit_char x
  end.

(** Lines 217-224 of [main]: the suggested windows, [None] when the length
    is not a number and nothing is suggested. *)
Definition suggested_windows (info : FetchInfo)
    : outcome (option (list (Z * Z))) :=
  match info_length info with
  | IntValue n => ws <- url_windows n ;; Returns (Some ws)
  | StrValue s =>
      if str_isdigit s
      then match py_int s with
           | Some n => ws <- url_windows n ;; Returns (Some ws)
           | None => Raises ValueError
           end
      else Returns None
  end.

(** A non-empty text of decimal digits, and the number it writes. *)
Definition digits_text (ds : str) : Prop :=
  ds <> [] /\ Forall (fun c => isdigit c = true) ds.

Definition digits_value (ds : str) : Z :=
  fold_left (fun a c => 10 * a + digit_value c) ds 0.

(** * Properties of the sampling plan *)

Lemma sampling_points_returns (total : Z) :
  sampling_points total = Returns {|
    beginning := if total >? 10 then (1, Z.min (total / 10) 100) else (1, total);
    pct25 := (total / 4, Z.min total (total / 4 + 50));
    pct50 := (total / 2, Z.min total (total / 2 + 50));
    pct75 := (3 * total / 4, Z.min total (3 * total / 4 + 50));
    end_ := (Z.max 1 (total - total / 10), total);
    chunks :=
      if total <? 6 then [(1, total)]
      else map (fun i => (i * Z.max 1 (total / 6) + 1,
                          Z.min ((i + 1) * Z.max 1 (total / 6)) total))
               (range 6)
  |}.
Proof.
  unfold sampling_points, floordiv; cbn.
  destruct (total >? 10); reflexivity.
Qed.

Lemma pdf_sampling_points_returns (total : Z) :
  pdf_sampling_points total = Returns {|
    beginning := if total >? 10 then (1, Z.max 1 (total / 10)) else (1, total);
    pct25 := (total / 4, Z.min total (total / 4 + 5));
    pct50 := (total / 2, Z.min total (total / 2 + 5));
    pct75 := (3 * total / 4, Z.min total (3 * total / 4 + 5));
    end_ := (Z.max 1 (total - total / 10), total);
    chunks :=
      if total <? 6 then [(1, total)]
      else map (fun i => (i * Z.max 1 (total / 6) + 1,
                          Z.min ((i + 1) * Z.max 1 (total / 6)) total))
               (range 6)
  |}.
Proof.
  unfold pdf_sampling_points, floordiv; cbn.
  destruct (total >? 10); reflexivity.
Qed.

(** The planner is total: no extent makes it raise. *)
Lemma sampling_points_never_raises (total : Z) (e : exn) :
  sampling_points total <> Raises e.
Proof. rewrite sampling_points_returns; discriminate. Qed.

Lemma range_6 : range 6 = [0; 1; 2; 3; 4; 5].
Proof. reflexivity. Qed.

(** C4.  For every total the chunk list is [[(1, total)]] when [total < 6] and
    otherwise exactly the six windows [(i*size + 1, min((i+1)*size, total))],
    [i = 0..5], with [size = max(1, total // 6)]. *)
Theorem chunks_formula (total : Z) :
  exists p, sampling_points total = Returns p /\
    let size := Z.max 1 (total / 6) in
    chunks p =
      if total <? 6 then [(1, total)]
      else [(0 * size + 1, Z.min ((0 + 1) * size) total);
            (1 * size + 1, Z.min ((1 + 1) * size) total);
            (2 * size + 1, Z.min ((2 + 1) * size) total);
            (3 * size + 1, Z.min ((3 + 1) * size) total);
            (4 * size + 1, Z.min ((4 + 1) * size) total);
            (5 * size + 1, Z.min ((5 + 1) * size) total)].
Proof.
  rewrite sampling_points_returns; eexists; split; [reflexivity|].
  cbn [chunks]. destruct (total <? 6); reflexivity.
Qed.

(** What the six windows cover when there are at least six lines: they touch
    one another and their union is [[1, 6 * (total // 6)]], so the last
    [total mod 6] lines belong to no chunk. *)
Lemma chunks_cover_multiple_of_six (total : Z) (H : 6 <= total) :
  exists p, sampling_points total = Returns p /\
    contiguous (chunks p) /\
    forall k, (exists w, In w (chunks p) /\ in_window k w)
              <-> 1 <= k <= 6 * (total / 6).
Proof.
  rewrite sampling_points_returns; eexists; split; [reflexivity|].
  cbn [chunks]. rewrite range_6. cbn [map].
  destruct (Z.ltb_spec total 6) as [?|_]; [lia|].
  assert (Hs : 1 <= total / 6) by (apply Z.div_le_lower_bound; lia).
  assert (Hm : 6 * (total / 6) <= total) by (apply Z.mul_div_le; lia).
  set (s := total / 6) in *.
  replace (Z.max 1 s) with s by lia.
  split.
  - cbn [contiguous fst snd]. repeat split; lia.
  - intro k; unfold in_window; split.
    + intros (w & Hw & Hk). cbn [In] in Hw.
      repeat (destruct Hw as [<-|Hw]; [cbn [fst snd] in Hk; lia|]).
      contradiction.
    + intro Hk.
      assert (Hcase : k <= s \/ s < k <= 2 * s \/ 2 * s < k <= 3 * s \/
                      3 * s < k <= 4 * s \/ 4 * s < k <= 5 * s \/
                      5 * s < k <= 6 * s) by lia.
      destruct Hcase as [?|[?|[?|[?|[?|?]]]]];
        [exists (0 * s + 1, Z.min ((0 + 1) * s) total)
        |exists (1 * s + 1, Z.min ((1 + 1) * s) total)
        |exists (2 * s + 1, Z.min ((2 + 1) * s) total)
        |exists (3 * s + 1, Z.min ((3 + 1) * s) total)
        |exists (4 * s + 1, Z.min ((4 + 1) * s) total)
        |exists (5 * s + 1, Z.min ((5 + 1) * s) total)];
        (split; [cbn [In]; tauto | cbn [fst snd]; lia]).
Qed.

(** C1.  An 8-line document: the six chunks are the single lines 1 to 6, the
    last one ends at line 6, and lines 7 and 8 lie in no chunk. *)
Theorem chunks_of_8_lines_stop_at_6 :
  exists p, sampling_points 8 = Returns p /\
    chunks p = [(1, 1); (2, 2); (3, 3); (4, 4); (5, 5); (6, 6)] /\
    last (chunks p) (0, 0) = (6, 6) /\
    Forall (fun w => ~ in_window 7 w /\ ~ in_window 8 w) (chunks p).
Proof.
  eexists; split; [reflexivity|]. cbn.
  repeat split; repeat constructor; unfold in_window; cbn; lia.
Qed.

(** Fewer lines than chunks: one chunk, the whole extent. *)
Lemma chunks_small (total : Z) (H : total < 6) :
  exists p, sampling_points total = Returns p /\ chunks p = [(1, total)].
Proof.
  rewrite sampling_points_returns; eexists; split; [reflexivity|].
  cbn [chunks]. destruct (Z.ltb_spec total 6); [reflexivity|lia].
Qed.

(** C2.  A one-line document: the three quartile windows start at line 0, so
    they are not 1-indexed windows inside [[1, 1]]. *)
Theorem one_line_quartiles_start_at_0 :
  exists p, sampling_points 1 = Returns p /\
    pct25 p = (0, 1) /\ pct50 p = (0, 1) /\ pct75 p = (0, 1) /\
    ~ window_ok 1 (pct25 p) /\ ~ window_ok 1 (pct50 p) /\
    ~ window_ok 1 (pct75 p).
Proof.
  eexists; split; [reflexivity|]. cbn.
  repeat split; unfold window_ok; cbn; lia.
Qed.

(** From four lines on, all five named windows are valid; the first and the
    last are valid from one line on. *)
Lemma named_windows_ok_from_4 (total : Z) (H : 4 <= total) :
  exists p, sampling_points total = Returns p /\
    Forall (window_ok total) (named_windows p).
Proof.
  rewrite sampling_points_returns; eexists; split; [reflexivity|].
  unfold named_windows, window_ok; cbn [beginning pct25 pct50 pct75 end_].
  assert (1 <= total / 4) by (apply Z.div_le_lower_bound; lia).
  assert (2 <= total / 2) by (apply Z.div_le_lower_bound; lia).
  assert (3 <= 3 * total / 4) by (apply Z.div_le_lower_bound; lia).
  assert (3 * total / 4 <= total) by (apply Z.div_le_upper_bound; lia).
  assert (total / 4 <= total) by (apply Z.div_le_upper_bound; lia).
  assert (total / 2 <= total) by (apply Z.div_le_upper_bound; lia).
  assert (0 <= total / 10 <= total)
    by (split; [apply Z.div_pos|apply Z.div_le_upper_bound]; lia).
  destruct (Z.gtb_spec total 10).
  - assert (1 <= total / 10) by (apply Z.div_le_lower_bound; lia).
    repeat constructor; cbn [fst snd]; lia.
  - repeat constructor; cbn [fst snd]; lia.
Qed.

Lemma beginning_end_ok (total : Z) (H : 1 <= total) :
  exists p, sampling_points total = Returns p /\
    window_ok total (beginning p) /\ window_ok total (end_ p).
Proof.
  rewrite sampling_points_returns; eexists; split; [reflexivity|].
  unfold window_ok; cbn [beginning end_].
  assert (0 <= total / 10 <= total)
    by (split; [apply Z.div_pos|apply Z.div_le_upper_bound]; lia).
  destruct (Z.gtb_spec total 10).
  - assert (1 <= total / 10) by (apply Z.div_le_lower_bound; lia).
    cbn [fst snd]; lia.
  - cbn [fst snd]; lia.
Qed.

(** C9.  A PDF without pages, the one input whose total is 0: the plan is
    returned and nothing is raised, the first window, the last window and
    the single chunk are the empty [(1, 0)], but the three quartile windows
    are [(0, 0)]: they start at position 0 and select it, so they are not
    empty windows of the [(1, 0)] kind. *)
Theorem zero_pages_quartiles_start_at_0 :
  exists p, pdf_sampling_points 0 = Returns p /\
    beginning p = (1, 0) /\ end_ p = (1, 0) /\ chunks p = [(1, 0)] /\
    pct25 p = (0, 0) /\ pct50 p = (0, 0) /\ pct75 p = (0, 0) /\
    in_window 0 (pct25 p) /\ in_window 0 (pct50 p) /\ in_window 0 (pct75 p).
Proof.
  eexists; split; [reflexivity|]. cbn.
  repeat split; unfold in_window; cbn; lia.
Qed.

Lemma split_at_least_one (sep : ascii) (x : str) : 1 <= len (split sep x).
Proof.
  unfold len.
  induction x as [|c tl IH]; cbn [split]; [cbn; lia|].
  destruct (Ascii.eqb c sep).
  - cbn [List.length]; lia.
  - destruct (split sep tl); cbn [List.length] in *; lia.
Qed.

(** * Properties of the sections *)

Lemma enumerate_combine {A : Type} (l : list A) :
  enumerate l = combine (map Z.of_nat (seq 0 (List.length l))) l.
Proof. reflexivity. Qed.

(** The index-based loop computes the left-to-right reading. *)
Lemma build_sections_from (pre tl : list Header) (total : Z) :
  map (fun ih : Z * Header =>
         let i := fst ih in
         let header := snd ih in
         let start := line header in
         let end' := if i + 1 <? len (pre ++ tl)
                     then line (nth (Z.to_nat (i + 1)) (pre ++ tl) header) - 1
                     else total in
         {| name := text header; start_line := start; end_line := end';
            line_count := end' - start + 1 |})
      (combine (map Z.of_nat (seq (List.length pre) (List.length tl))) tl)
  = sections_from tl total.
Proof.
  revert pre; induction tl as [|h rest IH]; intro pre; [reflexivity|].
  cbn [List.length seq map combine sections_from fst snd].
  f_equal.
  - unfold len. rewrite length_app. cbn [List.length].
    replace (Z.to_nat (Z.of_nat (List.length pre) + 1))
      with (S (List.length pre)) by lia.
    destruct rest as [|h' rest'].
    + cbn [List.length].
      destruct (Z.ltb_spec (Z.of_nat (List.length pre) + 1)
                  (Z.of_nat (List.length pre + 1))); [lia|reflexivity].
    + cbn [List.length].
      destruct (Z.ltb_spec (Z.of_nat (List.length pre) + 1)
                  (Z.of_nat (List.length pre + S (S (List.length rest')))));
        [|lia].
      rewrite app_nth2 by lia.
      replace (S (List.length pre) - List.length pre)%nat with 1%nat by lia.
      reflexivity.
  - specialize (IH (pre ++ [h])).
    rewrite <- app_assoc in IH; cbn [app] in IH.
    rewrite length_app in IH; cbn [List.length] in IH.
    replace (List.length pre + 1)%nat with (S (List.length pre)) in IH by lia.
    exact IH.
Qed.

Lemma build_sections_eq (hs : list Header) (total : Z) :
  build_sections hs total = sections_from hs total.
Proof.
  unfold build_sections. rewrite enumerate_combine.
  exact (build_sections_from [] hs total).
Qed.

Lemma sections_from_length (hs : list Header) (total : Z) :
  List.length (sections_from hs total) = List.length hs.
Proof. induction hs; cbn [sections_from List.length]; congruence. Qed.

Lemma sections_from_nth (hs : list Header) (total : Z) :
  forall i h, nth_error hs i = Some h ->
    nth_error (sections_from hs total) i =
      Some (let end' := match nth_error hs (S i) with
                        | Some h' => line h' - 1
                        | None => total
                        end in
            {| name := text h; start_line := line h; end_line := end';
               line_count := end' - line h + 1 |}).
Proof.
  induction hs as [|h0 rest IH]; intros i h Hi.
  - destruct i; discriminate.
  - destruct i as [|i].
    + cbn in Hi; injection Hi as <-.
      cbn [sections_from nth_error]. destruct rest; reflexivity.
    + cbn [nth_error] in Hi. cbn [sections_from nth_error].
      rewrite (IH i h Hi). reflexivity.
Qed.

Lemma sections_from_nth_inv (hs : list Header) (total : Z) (i : nat) (s : Section) :
  nth_error (sections_from hs total) i = Some s ->
  exists h, nth_error hs i = Some h.
Proof.
  intro Hs.
  assert (Hlt : (i < List.length hs)%nat).
  { rewrite <- (sections_from_length hs total).
    apply nth_error_Some. congruence. }
  destruct (nth_error hs i) as [h|] eqn:Hh; [eauto|].
  apply nth_error_None in Hh. lia.
Qed.

Lemma sections_from_adjacent (hs : list Header) (total : Z) (i : nat)
    (s s' : Section) :
  nth_error (sections_from hs total) i = Some s ->
  nth_error (sections_from hs total) (S i) = Some s' ->
  end_line s + 1 = start_line s'.
Proof.
  intros Hs Hs'.
  destruct (sections_from_nth_inv _ _ _ _ Hs) as [h Hh].
  destruct (sections_from_nth_inv _ _ _ _ Hs') as [h' Hh'].
  rewrite (sections_from_nth _ _ _ _ Hh) in Hs.
  rewrite (sections_from_nth _ _ _ _ Hh') in Hs'.
  injection Hs as <-. injection Hs' as <-.
  cbv zeta; cbn [end_line start_line].
  change (match hs with [] => None | _ :: l' => nth_error l' i end)
    with (nth_error hs (S i)).
  rewrite Hh'. lia.
Qed.

Lemma sections_from_last (hs : list Header) (total : Z) :
  hs <> [] ->
  exists s, nth_error (sections_from hs total) (List.length hs - 1) = Some s /\
            end_line s = total.
Proof.
  intro H.
  destruct (nth_error hs (List.length hs - 1)) as [h|] eqn:Hh.
  - eexists; split; [apply sections_from_nth; exact Hh|].
    cbv zeta; cbn [end_line].
    replace (S (List.length hs - 1)) with (List.length hs)
      by (destruct hs; [congruence|cbn; lia]).
    assert (Hn : nth_error hs (List.length hs) = None)
      by (apply nth_error_None; lia).
    rewrite Hn; reflexivity.
  - apply nth_error_None in Hh. destruct hs; [congruence|cbn in Hh; lia].
Qed.

(** C5.  For [N >= 1] headers the builder gives [N] sections; section [i]
    starts at header [i], ends one line before header [i+1] when there is one
    and at [total_lines] otherwise, and counts [end - start + 1] lines; hence
    consecutive sections touch and the last one ends at [total_lines]. *)
Theorem build_sections_spec (hs : list Header) (total : Z) (H : hs <> []) :
  let ss := build_sections hs total in
  List.length ss = List.length hs /\
  (forall i h, nth_error hs i = Some h ->
     exists s, nth_error ss i = Some s /\
       name s = text h /\
       start_line s = line h /\
       end_line s = match nth_error hs (S i) with
                    | Some h' => line h' - 1
                    | None => total
                    end /\
       line_count s = end_line s - start_line s + 1) /\
  (forall i s s', nth_error ss i = Some s -> nth_error ss (S i) = Some s' ->
     end_line s + 1 = start_line s') /\
  (exists s, nth_error ss (List.length hs - 1) = Some s /\ end_line s = total).
Proof.
  cbv zeta. rewrite build_sections_eq.
  split; [apply sections_from_length|]. split; [|split].
  - intros i h Hi. eexists; split; [apply sections_from_nth; exact Hi|].
    cbn. repeat split.
  - intros i s s'. apply sections_from_adjacent.
  - apply sections_from_last; exact H.
Qed.

(** Headers at lines 1, 10 and 20 of a 30-line document give the sections
    1-9, 10-19 and 20-30. *)
Lemma build_sections_spec_witness :
  let hs := [mkHeader 1 1 (lit "A"); mkHeader 10 2 (lit "B");
             mkHeader 20 1 (lit "C")] in
  hs <> [] /\
  List.length (build_sections hs 30) = 3%nat /\
  map (fun s => (start_line s, end_line s, line_count s)) (build_sections hs 30)
    = [(1, 9, 9); (10, 19, 10); (20, 30, 11)].
Proof.
  cbv zeta. split; [discriminate|].
  split; [|reflexivity].
  apply (build_sections_spec
           [mkHeader 1 1 (lit "A"); mkHeader 10 2 (lit "B");
            mkHeader 20 1 (lit "C")] 30).
  discriminate.
Defined.

(** ** The extracted headers are in document order *)

Lemma sorted_app {A : Type} (R : A -> A -> Prop) (l1 l2 : list A) :
  StronglySorted R l1 -> StronglySorted R l2 ->
  (forall x y, In x l1 -> In y l2 -> R x y) ->
  StronglySorted R (l1 ++ l2).
Proof.
  induction l1 as [|a l1 IH]; intros H1 H2 H12; [exact H2|].
  cbn [app]. inversion H1 as [|? ? Hs Hf]; subst.
  constructor.
  - apply IH; [exact Hs|exact H2|]. intros; apply H12; [right|]; assumption.
  - apply Forall_app; split; [exact Hf|].
    apply Forall_forall; intros y Hy. apply H12; [left; reflexivity|exact Hy].
Qed.

Lemma same_line_sorted (c : Z) (hs : list Header) :
  (forall h, In h hs -> line h = c) -> StronglySorted by_line hs.
Proof.
  induction hs as [|h hs IH]; intro H; constructor.
  - apply IH. intros; apply H; right; assumption.
  - apply Forall_forall; intros h' Hh'. unfold by_line.
    rewrite (H h) by (left; reflexivity).
    rewrite (H h') by (right; assumption). lia.
Qed.

Lemma markdown_line_numbered : line_numbered markdown_line.
Proof.
  intros i ln h. unfold markdown_line.
  destruct (re_match markdown_pattern ln); cbn [In]; [|tauto].
  intros [<-|[]]; reflexivity.
Qed.

Lemma latex_line_numbered (patterns : list (regex * Z)) :
  line_numbered (latex_line patterns).
Proof.
  intros i ln h.
  induction patterns as [|[pattern lvl] rest IH]; cbn [latex_line In]; [tauto|].
  destruct (re_search pattern ln); [|exact IH].
  cbn [In]. intros [<-|Hin]; [reflexivity|exact (IH Hin)].
Qed.

Lemma book_line_numbered (patterns : list (regex * Z)) :
  line_numbered (book_line patterns).
Proof.
  intros i ln h.
  induction patterns as [|[pattern lvl] rest IH]; cbn [book_line In]; [tauto|].
  destruct (re_match pattern (strip ln)); [|exact IH].
  cbn [In]. intros [<-|[]]; reflexivity.
Qed.

Lemma plain_line_numbered : line_numbered plain_line.
Proof.
  intros i ln h. unfold plain_line. cbv zeta.
  match goal with |- In h (if ?b then _ else _) -> _ => destruct b end;
    cbn [In]; [|tauto].
  intros [<-|[]]; reflexivity.
Qed.

Lemma scan_from_sorted (body : Z -> str -> list Header) (lines : list str) :
  line_numbered body ->
  forall a : nat,
    let hs := flat_map (fun il : Z * str => body (fst il) (snd il))
                (combine (map Z.of_nat (seq a (List.length lines))) lines) in
    StronglySorted by_line hs /\
    forall h, In h hs -> Z.of_nat a + 1 <= line h <= Z.of_nat a + len lines.
Proof.
  intro Hb. unfold len.
  induction lines as [|ln rest IH]; intro a; cbv zeta.
  - cbn. split; [constructor|tauto].
  - cbn [List.length seq map combine flat_map fst snd].
    destruct (IH (S a)) as [IHs IHb]. split.
    + apply sorted_app.
      * apply (same_line_sorted (Z.of_nat a + 1)). intros h Hh.
        exact (Hb _ _ _ Hh).
      * exact IHs.
      * intros x y Hx Hy. unfold by_line.
        rewrite (Hb _ _ _ Hx). specialize (IHb y Hy). lia.
    + intros h Hh. apply in_app_or in Hh. destruct Hh as [Hh|Hh].
      * rewrite (Hb _ _ _ Hh). lia.
      * specialize (IHb h Hh). lia.
Qed.

Lemma scan_lines_sorted (body : Z -> str -> list Header) (lines : list str) :
  line_numbered body ->
  StronglySorted by_line (scan_lines body lines) /\
  forall h, In h (scan_lines body lines) -> 1 <= line h <= len lines.
Proof.
  intro Hb. unfold scan_lines. rewrite enumerate_combine.
  destruct (scan_from_sorted body lines Hb 0) as [Hs Hl].
  split; [exact Hs|]. intros h Hh. specialize (Hl h Hh). lia.
Qed.

Lemma find_headers_sorted (format_hint : string) (lines : list str) :
  StronglySorted by_line (find_headers format_hint lines) /\
  forall h, In h (find_headers format_hint lines) -> 1 <= line h <= len lines.
Proof.
  unfold find_headers.
  destruct (String.eqb format_hint "markdown");
    [apply scan_lines_sorted, markdown_line_numbered|].
  destruct (String.eqb format_hint "latex");
    [apply scan_lines_sorted, latex_line_numbered|].
  destruct (String.eqb format_hint "book");
    [apply scan_lines_sorted, book_line_numbered|].
  apply scan_lines_sorted, plain_line_numbered.
Qed.

(** ** The sections between the first header and the end *)

Lemma sections_from_start (hs : list Header) (total : Z) (s : Section) :
  In s (sections_from hs total) ->
  exists h, In h hs /\ start_line s = line h.
Proof.
  induction hs as [|h0 rest IH]; cbn [sections_from In]; [tauto|].
  intros [<-|Hs].
  - exists h0; split; [left; reflexivity|reflexivity].
  - destruct (IH Hs) as (h & Hh & E). exists h; split; [right; exact Hh|exact E].
Qed.

Lemma sections_from_cover (h0 : Header) (rest : list Header) (total k : Z) :
  StronglySorted by_line (h0 :: rest) ->
  (forall h, In h (h0 :: rest) -> line h <= total) ->
  (exists s, In s (sections_from (h0 :: rest) total) /\ in_section k s)
  <-> line h0 <= k <= total.
Proof.
  revert h0; induction rest as [|h1 rest' IH]; intros h0 Hs Hb.
  - cbn [sections_from In]. unfold in_section. split.
    + intros (s & [<-|[]] & Hk). cbn in Hk. exact Hk.
    + intro Hk. eexists; split; [left; reflexivity|cbn; exact Hk].
  - inversion Hs as [|? ? Hs' Hf]; subst.
    assert (H01 : line h0 <= line h1).
    { apply Forall_inv in Hf. exact Hf. }
    assert (H1t : line h1 <= total) by (apply Hb; right; left; reflexivity).
    specialize (IH h1 Hs' (fun h Hh => Hb h (or_intror Hh))).
    change (sections_from (h0 :: h1 :: rest') total)
      with ({| name := text h0; start_line := line h0;
               end_line := line h1 - 1;
               line_count := line h1 - 1 - line h0 + 1 |}
            :: sections_from (h1 :: rest') total).
    split.
    + intros (s & [<-|Hin] & Hk).
      * unfold in_section in Hk; cbn in Hk. lia.
      * assert (line h1 <= k <= total) by (apply IH; eauto). lia.
    + intro Hk. destruct (Z_lt_le_dec k (line h1)) as [Hlt|Hge].
      * eexists; split; [left; reflexivity|].
        unfold in_section; cbn. lia.
      * destruct (proj2 IH (conj Hge (proj2 Hk))) as (s & Hin & Hs1).
        exists s; split; [right; exact Hin|exact Hs1].
Qed.

Lemma sections_from_disjoint (hs : list Header) (total k : Z) :
  StronglySorted by_line hs ->
  forall i j s s',
    nth_error (sections_from hs total) i = Some s ->
    nth_error (sections_from hs total) j = Some s' ->
    in_section k s -> in_section k s' -> i = j.
Proof.
  induction hs as [|h0 rest IH]; intros Hs i j s s' Hi Hj Hk Hk'.
  - destruct i; discriminate.
  - inversion Hs as [|? ? Hs' Hf]; subst.
    assert (Hhead : forall n t, nth_error (sections_from rest total) n = Some t ->
              in_section k t ->
              ~ in_section k
                  {| name := text h0; start_line := line h0;
                     end_line := match rest with
                                 | h' :: _ => line h' - 1
                                 | [] => total
                                 end;
                     line_count := match rest with
                                   | h' :: _ => line h' - 1
                                   | [] => total
                                   end - line h0 + 1 |}).
    { intros n t Hn Ht.
      destruct (sections_from_start rest total t (nth_error_In _ _ Hn))
        as (h & Hh & E).
      unfold in_section in *; cbn [start_line end_line].
      destruct rest as [|h1 rest']; [destruct Hh|].
      inversion Hs' as [|? ? _ Hf1]; subst.
      assert (line h1 <= line h).
      { destruct Hh as [<-|Hh]; [lia|].
        rewrite Forall_forall in Hf1. exact (Hf1 h Hh). }
      lia. }
    destruct i as [|i], j as [|j]; cbn [sections_from nth_error] in Hi, Hj.
    + reflexivity.
    + injection Hi as <-. exfalso. exact (Hhead j s' Hj Hk' Hk).
    + injection Hj as <-. exfalso. exact (Hhead i s Hi Hk Hk').
    + f_equal. exact (IH Hs' i j s s' Hi Hj Hk Hk').
Qed.

(** C3, as the code has it.  With no header there is no section.  With
    headers, the first one lies inside the document and the sections split
    the lines from the first header to the last line: every such line is in a
    section, no line outside that range is, no line is in two sections, each
    section ends one line before the next starts, and the last section ends
    at the last line.  The lines before the first header are in no
    section. *)
Theorem sections_partition_from_first_header
    (format_hint : string) (content : str) :
  let lines := split newline content in
  let total := len lines in
  let hs := find_headers format_hint lines in
  let ss := build_sections hs total in
  (hs = [] -> ss = []) /\
  forall h0 rest, hs = h0 :: rest ->
    1 <= line h0 <= total /\
    (forall k, (exists s, In s ss /\ in_section k s) <-> line h0 <= k <= total) /\
    (forall k i j s s',
       nth_error ss i = Some s -> nth_error ss j = Some s' ->
       in_section k s -> in_section k s' -> i = j) /\
    (forall i s s',
       nth_error ss i = Some s -> nth_error ss (S i) = Some s' ->
       end_line s = start_line s' - 1) /\
    (exists s, nth_error ss (List.length hs - 1) = Some s /\ end_line s = total).
Proof.
  cbv zeta. rewrite build_sections_eq.
  destruct (find_headers_sorted format_hint (split newline content))
    as [Hsorted Hbound].
  split; [intros ->; reflexivity|].
  intros h0 rest E. rewrite E in *.
  split; [apply Hbound; left; reflexivity|].
  split; [|split; [|split]].
  - intro k. apply sections_from_cover; [exact Hsorted|].
    intros h Hh. apply Hbound; exact Hh.
  - intro k. apply sections_from_disjoint; exact Hsorted.
  - intros i s s' Hs Hs'.
    pose proof (sections_from_adjacent _ _ _ _ _ Hs Hs'). lia.
  - apply sections_from_last. discriminate.
Qed.

(** A two-line markdown text with its header on line 2: the sections cover
    exactly line 2. *)
Lemma sections_partition_from_first_header_witness :
  let content := lit "intro" ++ [newline] ++ lit "# Title" in
  let lines := split newline content in
  let hs := find_headers "markdown" lines in
  hs = [mkHeader 2 1 (lit "Title")] /\
  forall k, (exists s, In s (build_sections hs (len lines)) /\ in_section k s)
            <-> 2 <= k <= 2.
Proof.
  cbv zeta. split; [reflexivity|].
  apply (proj2 (sections_partition_from_first_header "markdown"
                  (lit "intro" ++ [newline] ++ lit "# Title"))
           (mkHeader 2 1 (lit "Title")) []).
  reflexivity.
Defined.

(** C3, as stated, fails: a two-line markdown text whose only header is on
    line 2 has one section, and line 1 is in no section. *)
Lemma line_before_first_header_uncovered :
  let content := lit "intro" ++ [newline] ++ lit "# Title" in
  let lines := split newline content in
  let total := len lines in
  let hs := find_headers "markdown" lines in
  hs <> [] /\ 1 <= total /\
  ~ (forall k, 1 <= k <= total ->
       exists s, In s (build_sections hs total) /\ in_section k s).
Proof.
  cbv zeta. split; [discriminate|]. split; [cbn; lia|].
  intro Hall. destruct (Hall 1) as (s & Hin & Hk); [cbn; lia|].
  cbn in Hin. destruct Hin as [<-|[]].
  unfold in_section in Hk; cbn in Hk. lia.
Qed.

(** * Properties of the analysis *)

Lemma analyze_returns (path : string) (content : str) (format_hint : string) :
  analyze_text_structure path (inl content) format_hint =
  let lines := split newline content in
  let fmt := effective_format format_hint content in
  let hs := find_headers fmt lines in
  match sampling_points (len lines) with
  | Returns plan =>
      Returns (Report {|
        filepath := path; format := fmt; total_lines := len lines;
        total_chars := len content;
        total_words := len (split_whitespace [] content);
        headers := firstn 50 hs;
        sections := firstn 30 (build_sections hs (len lines));
        sampling := plan |})
  | Raises e => Raises e
  end.
Proof.
  unfold analyze_text_structure, analyze_text_locals. cbv zeta.
  rewrite sampling_points_returns. reflexivity.
Qed.

(** C10.  When control reaches the [return] statement, the local [headers]
    holds every header found in the document and the local [sections] one
    section for each of them, however many there are: section [i] is named
    after header [i], starts at its line and is closed by header [i + 1] of
    the whole list, or by the end of the document.  The caps are taken only
    then: the report's headers are the first 50 of the local [headers], its
    sections the first 30 of the local [sections]. *)
Theorem caps_applied_after_full_sequences
    (path : string) (content : str) (format_hint : string) :
  exists st r,
    analyze_text_locals content format_hint = Returns st /\
    analyze_text_structure path (inl content) format_hint
    = Returns (Report r) /\
    loc_headers st
    = find_headers (effective_format format_hint content)
        (split newline content) /\
    List.length (loc_sections st) = List.length (loc_headers st) /\
    (forall i h, nth_error (loc_headers st) i = Some h ->
       exists s, nth_error (loc_sections st) i = Some s /\
         name s = text h /\
         start_line s = line h /\
         end_line s = match nth_error (loc_headers st) (S i) with
                      | Some h' => line h' - 1
                      | None => len (split newline content)
                      end) /\
    headers r = firstn 50 (loc_headers st) /\
    sections r = firstn 30 (loc_sections st).
Proof.
  unfold analyze_text_structure, analyze_text_locals. cbv zeta.
  rewrite sampling_points_returns.
  do 2 eexists. split; [reflexivity|]. split; [reflexivity|].
  cbn [loc_headers loc_sections returned headers sections].
  split; [reflexivity|].
  rewrite build_sections_eq. split; [apply sections_from_length|].
  split; [|split; reflexivity].
  intros i h Hi. eexists; split; [apply sections_from_nth; exact Hi|].
  repeat split.
Qed.

(** Sixty upper-case lines: at the [return] the locals hold sixty headers
    and sixty sections, the 56th header bounds a section of its own, and
    fifty headers and thirty sections are reported. *)
Lemma caps_applied_after_full_sequences_witness :
  let content := List.concat (repeat (lit "ABCD" ++ [newline]) 59) ++ lit "ABCD" in
  exists st r,
    analyze_text_locals content "plain" = Returns st /\
    analyze_text_structure "doc.txt" (inl content) "plain"
    = Returns (Report r) /\
    List.length (loc_headers st) = 60%nat /\
    List.length (loc_sections st) = 60%nat /\
    (exists s, nth_error (loc_sections st) 55 = Some s /\
               start_line s = 56 /\ end_line s = 56) /\
    List.length (headers r) = 50%nat /\ List.length (sections r) = 30%nat.
Proof.
  cbv zeta.
  destruct (caps_applied_after_full_sequences "doc.txt"
              (List.concat (repeat (lit "ABCD" ++ [newline]) 59) ++ lit "ABCD")
              "plain") as (st & r & Hst & Hr & Hh & Hlen & Hnth & Hch & Hcs).
  exists st, r. split; [exact Hst|]. split; [exact Hr|].
  assert (H60 : List.length (loc_headers st) = 60%nat)
    by (rewrite Hh; vm_compute; reflexivity).
  split; [exact H60|]. split; [rewrite Hlen; exact H60|].
  split.
  - destruct (Hnth 55%nat (mkHeader 56 1 (lit "ABCD")))
      as (s & Hs1 & _ & Hs2 & Hs3).
    + rewrite Hh. vm_compute; reflexivity.
    + exists s. split; [exact Hs1|]. split; [exact Hs2|].
      rewrite Hs3, Hh. vm_compute; reflexivity.
  - rewrite Hch, Hcs, !length_firstn, Hlen, H60. split; reflexivity.
Defined.

Lemma not_a_choice (format_hint : string) :
  ~ In format_hint format_choices ->
  String.eqb format_hint "auto" = false /\
  String.eqb format_hint "markdown" = false /\
  String.eqb format_hint "latex" = false /\
  String.eqb format_hint "book" = false.
Proof.
  intro H. unfold format_choices in H. cbn [In] in H.
  repeat split; apply String.eqb_neq; intro E; apply H; subst; tauto.
Qed.

(** C7, as the code has it.  A hint outside the recognised set is not
    rejected by the analysis: the report is returned, its format field echoes
    the hint, and its headers, sections and sampling plan are those of the
    plain heuristic, the same as under the hint ['plain'].  Only the
    argument parser of the command line turns such a hint down. *)
Theorem unknown_hint_falls_back_to_plain
    (path : string) (content : str) (format_hint : string)
    (H : ~ In format_hint format_choices) :
  (exists r r_plain,
     analyze_text_structure path (inl content) format_hint = Returns (Report r) /\
     analyze_text_structure path (inl content) "plain" = Returns (Report r_plain) /\
     format r = format_hint /\
     headers r = firstn 50 (scan_lines plain_line (split newline content)) /\
     headers r = headers r_plain /\
     sections r = sections r_plain /\
     sampling r = sampling r_plain) /\
  parse_format (Some format_hint) = Raises (SystemExit 2).
Proof.
  destruct (not_a_choice format_hint H) as (Ha & Hm & Hl & Hb).
  split.
  - rewrite !analyze_returns. cbv zeta.
    rewrite sampling_points_returns.
    unfold effective_format. rewrite Ha.
    change (String.eqb "plain" "auto") with false. cbv iota.
    unfold find_headers. rewrite Hm, Hl, Hb.
    change (String.eqb "plain" "markdown") with false.
    change (String.eqb "plain" "latex") with false.
    change (String.eqb "plain" "book") with false. cbv iota.
    do 2 eexists. split; [reflexivity|]. split; [reflexivity|].
    cbn [format headers sections sampling]. repeat split.
  - unfold parse_format.
    destruct (existsb (String.eqb format_hint) format_choices) eqn:E;
      [|reflexivity].
    apply existsb_exists in E. destruct E as (f & Hf & Ef).
    apply String.eqb_eq in Ef. subst f. contradiction.
Qed.

(** The hint ['rst'] on a two-line text. *)
Lemma unknown_hint_falls_back_to_plain_witness :
  let content := lit "NOTES" ++ [newline] ++ lit "hello" in
  ~ In "rst"%string format_choices /\
  exists r r_plain,
    analyze_text_structure "doc.txt" (inl content) "rst" = Returns (Report r) /\
    analyze_text_structure "doc.txt" (inl content) "plain"
      = Returns (Report r_plain) /\
    format r = "rst"%string /\
    headers r = firstn 50 (scan_lines plain_line (split newline content)) /\
    headers r = headers r_plain /\
    sections r = sections r_plain /\
    sampling r = sampling r_plain.
Proof.
  cbv zeta.
  assert (Hrst : ~ In "rst"%string format_choices).
  { unfold format_choices; cbn [In].
    intros [E|[E|[E|[E|[E|[]]]]]]; discriminate E. }
  split; [exact Hrst|].
  exact (proj1 (unknown_hint_falls_back_to_plain "doc.txt"
                  (lit "NOTES" ++ [newline] ++ lit "hello") "rst" Hrst)).
Defined.

(** C7, as stated, fails: under the unknown hint ['rst'] the analysis neither
    raises nor returns the error dictionary; it reports the heading that the
    plain heuristic finds. *)
Lemma unknown_hint_is_not_an_error :
  let content := lit "NOTES" ++ [newline] ++ lit "hello" in
  let result := analyze_text_structure "doc.txt" (inl content) "rst" in
  ~ In "rst"%string format_choices /\
  ~ ((exists e, result = Raises e) \/
     (exists message, result = Returns (ErrorResult message))) /\
  exists r, result = Returns (Report r) /\
    format r = "rst"%string /\ headers r = [mkHeader 1 1 (lit "NOTES")].
Proof.
  cbv zeta. split; [|split].
  - unfold format_choices; cbn [In].
    intros [E|[E|[E|[E|[E|[]]]]]]; discriminate E.
  - intros [[e He]|[message He]]; vm_compute in He; discriminate He.
  - eexists; split; [vm_compute; reflexivity|]. split; reflexivity.
Qed.

(** * Properties of the header patterns *)

(** A greedy run of one character class, followed by something that cannot
    start with a character of the class, stops exactly after the longest
    run. *)
Lemma star_chr_skip (ml : bool) (p : ascii -> bool)
    (k : cursor -> captures -> option captures) :
  (forall prev c tl caps, p c = true -> k (prev, c :: tl) caps = None) ->
  forall fuel x prev caps, (List.length x <= fuel)%nat ->
    star_loop (rmatch ml (Chr p)) k fuel (prev, x) caps = k (skip p prev x) caps.
Proof.
  intro Hk. induction fuel as [|fuel IH]; intros x prev caps Hlen.
  - destruct x; [reflexivity|cbn in Hlen; lia].
  - cbn [star_loop rmatch snd].
    destruct x as [|c tl]; [reflexivity|].
    cbn [skip]. destruct (p c) eqn:Hp; [|reflexivity].
    cbn [snd List.length].
    destruct (Nat.ltb_spec (List.length tl) (S (List.length tl))); [|lia].
    rewrite IH by (cbn in Hlen; lia).
    destruct (k (skip p (Some c) tl) caps) eqn:E; [reflexivity|].
    rewrite Hk by exact Hp. reflexivity.
Qed.

Lemma digit_not_dot (c : ascii) : isdigit c = true -> Ascii.eqb "." c = false.
Proof.
  intro H. destruct (Ascii.eqb_spec "." c) as [<-|]; [discriminate H|reflexivity].
Qed.

(** Facts about the character classes, decided on the character's code. *)
Ltac by_code :=
  unfold isspace, isdigit, int_blank, isAZ, isupper_char, islower_char,
    isalpha_char, between in *;
  repeat match goal with
         | H : context [N.leb ?a ?b] |- _ =>
             destruct (N.leb_spec a b); cbn [andb orb negb] in *;
             try discriminate; try lia
         | |- context [N.leb ?a ?b] =>
             destruct (N.leb_spec a b); cbn [andb orb negb] in *;
             try discriminate; try lia
         end;
  try reflexivity.

Lemma space_not_digit (c : ascii) : isspace c = true -> isdigit c = false.
Proof. intro H. by_code. Qed.

Lemma book_numbered_shape (x : str) (m : captures) :
  re_match book_numbered x = Some m ->
  exists c tl pv w rest,
    x = c :: tl /\ isdigit c = true /\
    skip isdigit (Some c) tl = (pv, "."%char :: w :: rest) /\ isspace w = true.
Proof.
  unfold re_match, book_numbered.
  destruct x as [|c tl]; [discriminate|].
  cbn [Seq fold_right rmatch Plus digit at_bol fst snd].
  destruct (isdigit c) eqn:E; [|discriminate].
  rewrite (star_chr_skip false isdigit).
  - destruct (skip isdigit (Some c) tl) as [pv rest] eqn:Es.
    unfold Lit. cbn [lit list_ascii_of_string map Seq fold_right rmatch snd].
    destruct rest as [|d rest]; [discriminate|].
    destruct (Ascii.eqb_spec "." d) as [<-|]; [|discriminate].
    cbn [space rmatch snd].
    destruct rest as [|w rest]; [discriminate|].
    destruct (isspace w) eqn:Ew; [|discriminate].
    intros _. exists c, tl, pv, w, rest. auto.
  - intros prev d tl' caps Hd.
    unfold Lit. cbn [lit list_ascii_of_string map Seq fold_right rmatch snd].
    rewrite (digit_not_dot d Hd). reflexivity.
  - cbn. lia.
Qed.

Lemma book_subsection_shape (x : str) (m : captures) :
  re_match book_subsection x = Some m ->
  exists c tl pv w rest,
    x = c :: tl /\ isdigit c = true /\
    skip isdigit (Some c) tl = (pv, "."%char :: w :: rest) /\ isdigit w = true.
Proof.
  unfold re_match, book_subsection.
  destruct x as [|c tl]; [discriminate|].
  cbn [Seq fold_right rmatch Plus digit at_bol fst snd].
  destruct (isdigit c) eqn:E; [|discriminate].
  rewrite (star_chr_skip false isdigit).
  - destruct (skip isdigit (Some c) tl) as [pv rest] eqn:Es.
    unfold Lit. cbn [lit list_ascii_of_string map Seq fold_right rmatch snd].
    destruct rest as [|d rest]; [discriminate|].
    destruct (Ascii.eqb_spec "." d) as [<-|]; [|discriminate].
    cbn [rmatch snd].
    destruct rest as [|w rest]; [discriminate|].
    destruct (isdigit w) eqn:Ew; [|discriminate].
    intros _. exists c, tl, pv, w, rest. auto.
  - intros prev d tl' caps Hd.
    unfold Lit. cbn [lit list_ascii_of_string map Seq fold_right rmatch snd].
    rewrite (digit_not_dot d Hd). reflexivity.
  - cbn. lia.
Qed.

Lemma book_chapter_starts_with_C (x : str) (m : captures) :
  re_match book_chapter x = Some m ->
  exists tl, x = "C"%char :: tl.
Proof.
  unfold re_match, book_chapter.
  destruct x as [|c tl].
  - cbn. discriminate.
  - unfold Lit. cbn [lit list_ascii_of_string map Seq fold_right rmatch at_bol fst snd].
    destruct (Ascii.eqb_spec "C" c) as [<-|_]; [eauto|discriminate].
Qed.

(** The numbered and the sub-numbered patterns never match the same text:
    after the leading digits and the dot the first wants a blank, the second
    a digit. *)
Lemma book_numbered_excludes_subsection (x : str) (m : captures) :
  re_match book_numbered x = Some m -> re_match book_subsection x = None.
Proof.
  intro Hn. destruct (re_match book_subsection x) as [m'|] eqn:Hs; [|reflexivity].
  destruct (book_numbered_shape x m Hn) as (c & tl & pv & w & rest & E & _ & Sk & Hw).
  destruct (book_subsection_shape x m' Hs)
    as (c' & tl' & pv' & w' & rest' & E' & _ & Sk' & Hw').
  rewrite E in E'. injection E' as <- <-.
  rewrite Sk in Sk'. injection Sk' as _ <- _.
  rewrite (space_not_digit w Hw) in Hw'. discriminate Hw'.
Qed.

Lemma book_numbered_excludes_chapter (x : str) (m : captures) :
  re_match book_numbered x = Some m -> re_match book_chapter x = None.
Proof.
  intro Hn. destruct (re_match book_chapter x) as [m'|] eqn:Hc; [|reflexivity].
  destruct (book_numbered_shape x m Hn) as (c & tl & _ & _ & _ & E & Hd & _).
  destruct (book_chapter_starts_with_C x m' Hc) as (tl' & E').
  rewrite E in E'. injection E' as -> _. discriminate Hd.
Qed.

Lemma book_line_at_most_one (patterns : list (regex * Z)) (i : Z) (ln : str) :
  (List.length (book_line patterns i ln) <= 1)%nat.
Proof.
  induction patterns as [|[pattern lvl] rest IH]; cbn [book_line List.length];
    [lia|].
  destruct (re_match pattern (strip ln)); [cbn; lia|exact IH].
Qed.

(** C6.  In the latex branch each of the three commands found on a line adds
    its own header, so one line can give several (here two); in the book
    branch a line gives at most one header, that of the first pattern to
    match in the order chapter (1), numbered (2), sub-numbered (3); a line
    matching the numbered pattern gives exactly one header, at level 2,
    whatever the sub-numbered pattern does on it. *)
Theorem latex_every_match_book_first_match (i : Z) (ln : str) :
  latex_line latex_patterns i ln =
    flat_map (fun pl : regex * Z =>
                match re_search (fst pl) ln with
                | Some m => [{| line := i + 1; level := snd pl;
                                text := strip (group 1 m) |}]
                | None => []
                end) latex_patterns /\
  latex_line latex_patterns i (lit "\chapter{A}\section{B}") =
    [mkHeader (i + 1) 1 (lit "A"); mkHeader (i + 1) 2 (lit "B")] /\
  (List.length (book_line book_patterns i ln) <= 1)%nat /\
  map level (book_line book_patterns i ln) =
    (if is_match (re_match book_chapter (strip ln)) then [1]
     else if is_match (re_match book_numbered (strip ln)) then [2]
     else if is_match (re_match book_subsection (strip ln)) then [3]
     else []) /\
  (is_match (re_match book_numbered (strip ln)) = true ->
   exists h, book_line book_patterns i ln = [h] /\ level h = 2 /\
             line h = i + 1).
Proof.
  split; [|split; [|split; [|split]]].
  - unfold latex_patterns. cbn [latex_line flat_map fst snd app].
    destruct (re_search (latex_command "chapter") ln),
             (re_search (latex_command "section") ln),
             (re_search (latex_command "subsection") ln); reflexivity.
  - reflexivity.
  - apply book_line_at_most_one.
  - unfold book_patterns. cbn [book_line].
    destruct (re_match book_chapter (strip ln)); [reflexivity|].
    destruct (re_match book_numbered (strip ln)); [reflexivity|].
    destruct (re_match book_subsection (strip ln)); reflexivity.
  - intro Hm.
    destruct (re_match book_numbered (strip ln)) as [m|] eqn:Hn;
      [|discriminate Hm].
    unfold book_patterns. cbn [book_line].
    rewrite (book_numbered_excludes_chapter _ _ Hn), Hn.
    eexists; split; [reflexivity|]. split; reflexivity.
Qed.

(** The line "1. Introduction" gives one header, at level 2. *)
Lemma latex_every_match_book_first_match_witness :
  is_match (re_match book_numbered (strip (lit "1. Introduction"))) = true /\
  exists h, book_line book_patterns 0 (lit "1. Introduction") = [h] /\
            level h = 2 /\ line h = 0 + 1.
Proof.
  split; [vm_compute; reflexivity|].
  apply (latex_every_match_book_first_match 0 (lit "1. Introduction")).
  vm_compute; reflexivity.
Defined.

(** * Further properties of the text analysis *)

Lemma in_firstn {A : Type} (n : nat) (l : list A) (x : A) :
  In x (firstn n l) -> In x l.
Proof.
  intro H. rewrite <- (firstn_skipn n l). apply in_or_app. left; exact H.
Qed.

Lemma sorted_firstn {A : Type} (R : A -> A -> Prop) (n : nat) (l : list A) :
  StronglySorted R l -> StronglySorted R (firstn n l).
Proof.
  revert n; induction l as [|a l IH]; intros n H.
  - rewrite firstn_nil; constructor.
  - destruct n as [|n]; [constructor|]. cbn [firstn].
    inversion H as [|? ? Hs Hf]; subst. constructor; [apply IH; exact Hs|].
    rewrite Forall_forall in *. intros x Hx. apply Hf.
    exact (in_firstn _ _ _ Hx).
Qed.

(** X1.  Whatever the format, the headers of the report are in document
    order and carry line numbers of the document; so does the whole header
    list they are cut from. *)
Theorem report_headers_in_document_order
    (path : string) (content : str) (format_hint : string) :
  exists r,
    analyze_text_structure path (inl content) format_hint = Returns (Report r) /\
    StronglySorted by_line (headers r) /\
    Forall (fun h => 1 <= line h <= total_lines r) (headers r) /\
    let hs := find_headers (format r) (split newline content) in
    StronglySorted by_line hs /\
    Forall (fun h => 1 <= line h <= total_lines r) hs.
Proof.
  rewrite analyze_returns. cbv zeta. rewrite sampling_points_returns.
  eexists; split; [reflexivity|].
  cbn [headers total_lines format].
  destruct (find_headers_sorted (effective_format format_hint content)
              (split newline content)) as [Hs Hb].
  split; [apply sorted_firstn; exact Hs|].
  split; [|split; [exact Hs|]].
  - apply Forall_forall. intros h Hh. apply Hb.
    exact (in_firstn _ _ _ Hh).
  - apply Forall_forall. exact Hb.
Qed.

Lemma markdown_one_per_line : one_per_line markdown_line.
Proof.
  intros i ln. unfold markdown_line.
  destruct (re_match markdown_pattern ln); cbn; lia.
Qed.

Lemma plain_one_per_line : one_per_line plain_line.
Proof.
  intros i ln. unfold plain_line. cbv zeta.
  match goal with |- (List.length (if ?b then _ else _) <= 1)%nat =>
    destruct b end; cbn; lia.
Qed.

Lemma scan_from_strict (body : Z -> str -> list Header) (lines : list str) :
  line_numbered body -> one_per_line body ->
  forall a : nat,
    StronglySorted strictly_above
      (flat_map (fun il : Z * str => body (fst il) (snd il))
         (combine (map Z.of_nat (seq a (List.length lines))) lines)).
Proof.
  intros Hb H1.
  induction lines as [|ln rest IH]; intro a; [constructor|].
  cbn [List.length seq map combine flat_map fst snd].
  destruct (scan_from_sorted body rest Hb (S a)) as [_ Hbound].
  specialize (H1 (Z.of_nat a) ln).
  destruct (body (Z.of_nat a) ln) as [|h [|h' more]] eqn:E.
  - exact (IH (S a)).
  - cbn [app]. constructor; [exact (IH (S a))|].
    apply Forall_forall. intros y Hy. unfold strictly_above.
    assert (Hh : line h = Z.of_nat a + 1)
      by (apply (Hb (Z.of_nat a) ln); rewrite E; left; reflexivity).
    specialize (Hbound y Hy). lia.
  - cbn in H1; lia.
Qed.

Lemma find_headers_strict (format_hint : string) (lines : list str) :
  format_hint <> "latex"%string ->
  StronglySorted strictly_above (find_headers format_hint lines).
Proof.
  intro Hl. unfold find_headers, scan_lines. rewrite enumerate_combine.
  destruct (String.eqb format_hint "markdown");
    [apply scan_from_strict;
       [apply markdown_line_numbered|apply markdown_one_per_line]|].
  destruct (String.eqb_spec format_hint "latex"); [contradiction|].
  destruct (String.eqb format_hint "book");
    [apply scan_from_strict;
       [apply book_line_numbered|intros i ln; apply book_line_at_most_one]|].
  apply scan_from_strict; [apply plain_line_numbered|apply plain_one_per_line].
Qed.

Lemma sections_from_bounds (hs : list Header) (total : Z) :
  StronglySorted by_line hs ->
  (forall h, In h hs -> 1 <= line h <= total) ->
  forall s, In s (sections_from hs total) ->
    1 <= start_line s /\ start_line s - 1 <= end_line s <= total /\
    line_count s = end_line s - start_line s + 1.
Proof.
  induction hs as [|h0 rest IH]; intros Hs Hb s Hin; [destruct Hin|].
  inversion Hs as [|? ? Hs' Hf]; subst.
  cbn [sections_from In] in Hin. destruct Hin as [<-|Hin].
  - cbn [start_line end_line line_count].
    pose proof (Hb h0 (or_introl eq_refl)).
    destruct rest as [|h1 rest'].
    + lia.
    + pose proof (Hb h1 (or_intror (or_introl eq_refl))).
      apply Forall_inv in Hf. unfold by_line in Hf. lia.
  - apply IH; [exact Hs'| |exact Hin].
    intros h Hh. apply Hb. right; exact Hh.
Qed.

Lemma sections_from_nonempty (hs : list Header) (total : Z) :
  StronglySorted strictly_above hs ->
  (forall h, In h hs -> 1 <= line h <= total) ->
  forall s, In s (sections_from hs total) -> 1 <= line_count s.
Proof.
  induction hs as [|h0 rest IH]; intros Hs Hb s Hin; [destruct Hin|].
  inversion Hs as [|? ? Hs' Hf]; subst.
  cbn [sections_from In] in Hin. destruct Hin as [<-|Hin].
  - cbn [line_count].
    pose proof (Hb h0 (or_introl eq_refl)).
    destruct rest as [|h1 rest'].
    + lia.
    + apply Forall_inv in Hf. unfold strictly_above in Hf. lia.
  - apply IH; [exact Hs'| |exact Hin].
    intros h Hh. apply Hb. right; exact Hh.
Qed.

Lemma sections_from_total (h0 : Header) (rest : list Header) (total : Z) :
  total_of (map line_count (sections_from (h0 :: rest) total))
  = total - line h0 + 1.
Proof.
  revert h0; induction rest as [|h1 rest' IH]; intro h0.
  - cbn. lia.
  - change (sections_from (h0 :: h1 :: rest') total)
      with ({| name := text h0; start_line := line h0;
               end_line := line h1 - 1;
               line_count := line h1 - 1 - line h0 + 1 |}
            :: sections_from (h1 :: rest') total).
    cbn [map total_of fold_right line_count].
    change (fold_right Z.add 0
              (map line_count (sections_from (h1 :: rest') total)))
      with (total_of (map line_count (sections_from (h1 :: rest') total))).
    rewrite IH. lia.
Qed.

(** X2.  The sections built from extracted headers are well formed: each
    starts at line 1 or later, ends at the last line or earlier, and counts
    [end - start + 1 >= 0] lines; unless the format is latex every section
    has at least one line; and the line counts add up to the number of lines
    from the first header to the end of the document. *)
Theorem section_line_counts (format_hint : string) (content : str) :
  let lines := split newline content in
  let total := len lines in
  let hs := find_headers format_hint lines in
  let ss := build_sections hs total in
  (forall s, In s ss ->
     1 <= start_line s /\ end_line s <= total /\
     line_count s = end_line s - start_line s + 1 /\ 0 <= line_count s) /\
  (format_hint <> "latex"%string -> forall s, In s ss -> 1 <= line_count s) /\
  (forall h0 rest, hs = h0 :: rest ->
     total_of (map line_count ss) = total - line h0 + 1).
Proof.
  cbv zeta. rewrite build_sections_eq.
  destruct (find_headers_sorted format_hint (split newline content))
    as [Hs Hb].
  split; [|split].
  - intros s Hin.
    destruct (sections_from_bounds _ _ Hs Hb s Hin) as (H1 & H2 & H3). lia.
  - intros Hl s Hin.
    exact (sections_from_nonempty _ _
             (find_headers_strict _ _ Hl) Hb s Hin).
  - intros h0 rest E. rewrite E. apply sections_from_total.
Qed.

(** A markdown text of three lines with headers on lines 1 and 3: the
    sections count 2 and 1 lines, 3 in all. *)
Lemma section_line_counts_witness :
  let content := lit "# A" ++ [newline] ++ lit "x" ++ [newline] ++ lit "# B" in
  let lines := split newline content in
  let hs := find_headers "markdown" lines in
  let ss := build_sections hs (len lines) in
  "markdown"%string <> "latex"%string /\
  (forall s, In s ss -> 1 <= line_count s) /\
  total_of (map line_count ss) = 3 - 1 + 1.
Proof.
  cbv zeta.
  assert (Hne : "markdown"%string <> "latex"%string) by discriminate.
  split; [exact Hne|]. split.
  - exact (proj1 (proj2 (section_line_counts "markdown"
             (lit "# A" ++ [newline] ++ lit "x" ++ [newline] ++ lit "# B")))
             Hne).
  - exact (proj2 (proj2 (section_line_counts "markdown"
             (lit "# A" ++ [newline] ++ lit "x" ++ [newline] ++ lit "# B")))
             (mkHeader 1 1 (lit "A")) [mkHeader 3 1 (lit "B")] eq_refl).
Defined.

Lemma sections_from_names (hs : list Header) (total : Z) :
  map name (sections_from hs total) = map text hs /\
  map start_line (sections_from hs total) = map line hs.
Proof.
  induction hs as [|h rest [IH1 IH2]]; [split; reflexivity|].
  cbn [sections_from map name start_line]. rewrite IH1, IH2. split; reflexivity.
Qed.

(** X3.  The report lists at most 50 headers and at most 30 sections, one
    section for each of its first 30 headers, named after that header and
    starting on its line. *)
Theorem report_caps_and_alignment
    (path : string) (content : str) (format_hint : string) :
  exists r,
    analyze_text_structure path (inl content) format_hint = Returns (Report r) /\
    (List.length (headers r) <= 50)%nat /\
    (List.length (sections r) <= 30)%nat /\
    List.length (sections r) = Nat.min 30 (List.length (headers r)) /\
    map name (sections r) = firstn 30 (map text (headers r)) /\
    map start_line (sections r) = firstn 30 (map line (headers r)).
Proof.
  rewrite analyze_returns. cbv zeta. rewrite sampling_points_returns.
  eexists; split; [reflexivity|]. cbn [headers sections].
  rewrite build_sections_eq.
  set (hs := find_headers (effective_format format_hint content)
               (split newline content)).
  set (total := len (split newline content)).
  destruct (sections_from_names hs total) as [Hn Hl].
  split; [apply firstn_le_length|]. split; [apply firstn_le_length|].
  split; [|split].
  - rewrite !length_firstn, sections_from_length. lia.
  - rewrite <- !firstn_map, Hn, firstn_firstn. reflexivity.
  - rewrite <- !firstn_map, Hl, firstn_firstn. reflexivity.
Qed.

Lemma split_length (sep : ascii) (x : str) :
  List.length (split sep x) = S (count_occ ascii_dec x sep).
Proof.
  induction x as [|c tl IH]; [reflexivity|].
  cbn [split count_occ].
  destruct (Ascii.eqb_spec c sep) as [->|Hne].
  - destruct (ascii_dec sep sep); [|contradiction].
    cbn [List.length]. rewrite IH. reflexivity.
  - destruct (ascii_dec c sep); [contradiction|].
    destruct (split sep tl); cbn [List.length] in *; [discriminate IH|exact IH].
Qed.

Lemma split_whitespace_length (cur x : str) :
  (List.length (split_whitespace cur x)
   <= List.length x + match cur with [] => 0 | _ => 1 end)%nat.
Proof.
  revert cur; induction x as [|c tl IH]; intro cur.
  - cbn. destruct cur; cbn; lia.
  - cbn [split_whitespace List.length].
    destruct (isspace c).
    + destruct cur.
      * specialize (IH []). cbn in IH. lia.
      * specialize (IH []). cbn in IH. cbn [List.length]. lia.
    + specialize (IH (c :: cur)). cbv iota in IH. destruct cur; lia.
Qed.

(** X4.  The counters of the report: the number of lines is one more than
    the number of newline characters (an empty text has one line, a final
    newline opens one more, empty, line), the number of characters is the
    length of the text, and there are no more words than characters. *)
Theorem report_counters
    (path : string) (content : str) (format_hint : string) :
  exists r,
    analyze_text_structure path (inl content) format_hint = Returns (Report r) /\
    total_lines r = 1 + Z.of_nat (count_occ ascii_dec content newline) /\
    total_chars r = len content /\
    1 <= total_lines r <= total_chars r + 1 /\
    0 <= total_words r <= total_chars r.
Proof.
  rewrite analyze_returns. cbv zeta. rewrite sampling_points_returns.
  eexists; split; [reflexivity|].
  cbn [total_lines total_chars total_words]. unfold len.
  rewrite split_length.
  pose proof (count_occ_bound ascii_dec newline content).
  pose proof (split_whitespace_length [] content) as Hw. cbv iota in Hw.
  repeat split; lia.
Qed.

(** X5.  The page planner from four pages on: the five named windows are
    valid page ranges of the document, a quartile window spans at most six
    pages, and the chunks and the last window are those of the line planner
    on the same total. *)
Theorem pdf_sampling_windows (total : Z) (H : 4 <= total) :
  exists p,
    pdf_sampling_points total = Returns p /\
    Forall (window_ok total) (named_windows p) /\
    Forall (fun w => snd w - fst w <= 5) [pct25 p; pct50 p; pct75 p] /\
    exists q, sampling_points total = Returns q /\
              chunks p = chunks q /\ end_ p = end_ q.
Proof.
  rewrite pdf_sampling_points_returns, sampling_points_returns.
  eexists; split; [reflexivity|].
  unfold named_windows, window_ok; cbn [beginning pct25 pct50 pct75 end_ chunks].
  assert (1 <= total / 4) by (apply Z.div_le_lower_bound; lia).
  assert (2 <= total / 2) by (apply Z.div_le_lower_bound; lia).
  assert (3 <= 3 * total / 4) by (apply Z.div_le_lower_bound; lia).
  assert (3 * total / 4 <= total) by (apply Z.div_le_upper_bound; lia).
  assert (total / 4 <= total) by (apply Z.div_le_upper_bound; lia).
  assert (total / 2 <= total) by (apply Z.div_le_upper_bound; lia).
  assert (0 <= total / 10 <= total)
    by (split; [apply Z.div_pos|apply Z.div_le_upper_bound]; lia).
  split; [|split].
  - destruct (Z.gtb_spec total 10);
      repeat constructor; cbn [fst snd]; lia.
  - repeat constructor; cbn [fst snd]; lia.
  - eexists; split; [reflexivity|]. split; reflexivity.
Qed.

(** Twelve pages. *)
Lemma pdf_sampling_windows_witness :
  4 <= 12 /\
  exists p, pdf_sampling_points 12 = Returns p /\
            Forall (window_ok 12) (named_windows p).
Proof.
  split; [lia|].
  destruct (pdf_sampling_windows 12 ltac:(lia)) as (p & Hp & Hw & _).
  exists p; split; [exact Hp|exact Hw].
Defined.

(** * Properties of the page ranges *)

(** A text made of decimal digits only, and at least one. *)
Lemma int_digits_all (ds : str) :
  Forall (fun c => isdigit c = true) ds ->
  forall acc after_digit, ds <> [] \/ after_digit = true ->
    int_digits acc after_digit ds
    = Some (fold_left (fun a c => 10 * a + digit_value c) ds acc).
Proof.
  induction 1 as [|c tl Hc _ IH]; intros acc b Hne.
  - destruct Hne as [Hne | ->]; [congruence|reflexivity].
  - cbn [int_digits fold_left]. rewrite Hc. apply IH. right; reflexivity.
Qed.

Lemma digit_not_blank (c : ascii) : isdigit c = true -> int_blank c = false.
Proof. intro H. by_code. Qed.

Lemma digit_not_space (c : ascii) : isdigit c = true -> isspace c = false.
Proof.
  intro H. destruct (isspace c) eqn:E; [|reflexivity].
  rewrite (space_not_digit c E) in H. discriminate H.
Qed.

Lemma digit_not_char (c d : ascii) :
  isdigit c = true -> isdigit d = false -> Ascii.eqb c d = false.
Proof.
  intros Hc Hd. destruct (Ascii.eqb_spec c d) as [->|]; [congruence|reflexivity].
Qed.

(** A text that neither starts nor ends with a character of the class is
    left alone by the two-sided stripping of that class. *)
Lemma strip_class_id (p : ascii -> bool) (x : str) (c0 : ascii) (tl : str) :
  x = c0 :: tl -> p c0 = false -> p (last x c0) = false ->
  rev (dropwhile p (rev (dropwhile p x))) = x.
Proof.
  intros -> H0 Hl.
  cbn [dropwhile]. rewrite H0.
  destruct (exists_last (l := c0 :: tl) ltac:(discriminate)) as (front & z & E).
  rewrite E in *. rewrite last_last in Hl.
  rewrite rev_app_distr. cbn [rev app dropwhile]. rewrite Hl.
  cbn [rev]. rewrite rev_involutive. reflexivity.
Qed.

Lemma uint_chars_digits (d : Decimal.uint) :
  Forall (fun c => isdigit c = true) (lit (NilEmpty.string_of_uint d)).
Proof.
  induction d; cbn [NilEmpty.string_of_uint lit list_ascii_of_string];
    constructor; try reflexivity; assumption.
Qed.

Lemma uint_chars_acc (d : Decimal.uint) (acc : positive) :
  fold_left (fun a c => 10 * a + digit_value c)
    (lit (NilEmpty.string_of_uint d)) (Z.pos acc)
  = Z.pos (Pos.of_uint_acc d acc).
Proof.
  revert acc; induction d; intro acc;
    cbn [NilEmpty.string_of_uint lit list_ascii_of_string fold_left
         Pos.of_uint_acc]; [reflexivity|..];
    match goal with
    | |- fold_left _ _ ?a = Z.pos (Pos.of_uint_acc _ ?b) =>
        replace a with (Z.pos b)
          by (match goal with
              | |- context [digit_value ?c] =>
                  let v := eval vm_compute in (digit_value c) in
                  change (digit_value c) with v
              end; lia)
    end; apply IHd.
Qed.

Lemma uint_chars_value (d : Decimal.uint) :
  fold_left (fun a c => 10 * a + digit_value c)
    (lit (NilEmpty.string_of_uint d)) 0
  = Z.of_uint d.
Proof.
  unfold Z.of_uint.
  induction d;
    cbn [NilEmpty.string_of_uint lit list_ascii_of_string fold_left
         Pos.of_uint]; [reflexivity|exact IHd|..];
    match goal with
    | |- fold_left _ _ ?a = Z.of_N (N.pos (Pos.of_uint_acc _ ?b)) =>
        replace a with (Z.pos b)
          by (match goal with
              | |- context [digit_value ?c] =>
                  let v := eval vm_compute in (digit_value c) in
                  change (digit_value c) with v
              end; lia)
    end; apply uint_chars_acc.
Qed.

Lemma str_of_uint_digits (d : Decimal.uint) :
  digits_text (lit (NilZero.string_of_uint d)) /\
  digits_value (lit (NilZero.string_of_uint d)) = Z.of_uint d.
Proof.
  unfold digits_text, digits_value.
  destruct d;
    try (split; [split; [discriminate|apply uint_chars_digits]
                |apply uint_chars_value]).
  cbn. split; [split; [discriminate|repeat constructor]|reflexivity].
Qed.

Lemma str_of_Z_nonneg (n : Z) :
  0 <= n -> digits_text (str_of_Z n) /\ digits_value (str_of_Z n) = n.
Proof.
  intro Hn. unfold str_of_Z.
  pose proof (DecimalZ.of_to n) as E.
  destruct n as [|p|p]; [| |lia].
  - cbn. unfold digits_text, digits_value.
    split; [split; [discriminate|repeat constructor]|reflexivity].
  - cbn [Z.to_int NilZero.string_of_int] in *. cbn [Z.of_int] in E.
    destruct (str_of_uint_digits (Pos.to_uint p)) as [Hd Hv].
    split; [exact Hd|]. rewrite Hv. exact E.
Qed.

Lemma str_of_Z_neg (n : Z) :
  n < 0 ->
  exists ds, str_of_Z n = "-"%char :: ds /\ digits_text ds /\
             digits_value ds = - n.
Proof.
  intro Hn. unfold str_of_Z.
  pose proof (DecimalZ.of_to n) as E.
  destruct n as [|p|p]; [lia|lia|].
  cbn [Z.to_int NilZero.string_of_int] in *. cbn [Z.of_int] in E.
  exists (lit (NilZero.string_of_uint (Pos.to_uint p))).
  split; [reflexivity|].
  destruct (str_of_uint_digits (Pos.to_uint p)) as [Hd Hv].
  split; [exact Hd|]. rewrite Hv. lia.
Qed.

Lemma digits_text_ends (ds : str) :
  digits_text ds ->
  exists c0 tl, ds = c0 :: tl /\ isdigit c0 = true /\
                isdigit (last ds c0) = true.
Proof.
  intros [Hne Hall]. destruct ds as [|c0 tl]; [congruence|].
  exists c0, tl. split; [reflexivity|].
  split; [exact (Forall_inv Hall)|].
  destruct (exists_last Hne) as (front & z & E). rewrite E in *.
  rewrite last_last. rewrite Forall_forall in Hall. apply Hall.
  apply in_or_app; right; left; reflexivity.
Qed.

Lemma filter_all {A : Type} (p : A -> bool) (l : list A) :
  Forall (fun a => p a = true) l -> filter p l = l.
Proof.
  induction 1 as [|a l Ha _ IH]; [reflexivity|].
  cbn [filter]. rewrite Ha, IH. reflexivity.
Qed.

Lemma int_body_digits (ds : str) :
  digits_text ds -> len ds <= int_max_str_digits ->
  int_body ds = Some (digits_value ds).
Proof.
  intros Hd Hlen. unfold int_body.
  rewrite (filter_all isdigit ds (proj2 Hd)).
  destruct (Z.gtb_spec (len ds) int_max_str_digits); [lia|].
  apply int_digits_all; [exact (proj2 Hd)|left; exact (proj1 Hd)].
Qed.

Lemma py_int_digits (ds : str) :
  digits_text ds -> len ds <= int_max_str_digits ->
  py_int ds = Some (digits_value ds).
Proof.
  intros Hd Hlen. destruct (digits_text_ends ds Hd) as (c0 & tl & E & H0 & Hl).
  unfold py_int.
  rewrite (strip_class_id int_blank ds c0 tl E)
    by (apply digit_not_blank; assumption).
  cbv zeta. rewrite E at 1.
  rewrite (digit_not_char c0 "-" H0 eq_refl), (digit_not_char c0 "+" H0 eq_refl).
  apply int_body_digits; assumption.
Qed.

Lemma last_default {A : Type} (l : list A) (d d' : A) :
  l <> [] -> last l d = last l d'.
Proof.
  induction l as [|x xs IH]; intro H; [congruence|].
  destruct xs as [|y ys]; [reflexivity|].
  change (last (y :: ys) d = last (y :: ys) d'). apply IH. discriminate.
Qed.

Lemma last_cons {A : Type} (l : list A) (a d : A) :
  l <> [] -> last (a :: l) d = last l d.
Proof. destruct l; [congruence|reflexivity]. Qed.

Lemma py_int_minus_digits (ds : str) :
  digits_text ds -> len ds <= int_max_str_digits ->
  py_int ("-"%char :: ds) = Some (- digits_value ds).
Proof.
  intros Hd Hlen. destruct (digits_text_ends ds Hd) as (c0 & tl & E & H0 & Hl).
  unfold py_int.
  rewrite (strip_class_id int_blank ("-"%char :: ds) "-" ds eq_refl eq_refl).
  - cbv zeta. cbn [Ascii.eqb Bool.eqb]. cbv iota.
    rewrite int_body_digits; [reflexivity|exact Hd|exact Hlen].
  - rewrite (last_cons ds "-"%char "-"%char (proj1 Hd)).
    rewrite (last_default ds "-"%char c0 (proj1 Hd)).
    apply digit_not_blank. exact Hl.
Qed.

(** Writing an integer and reading it back, within the digit limit. *)
Lemma py_int_str_of_Z (n : Z) :
  digit_count n <= int_max_str_digits -> py_int (str_of_Z n) = Some n.
Proof.
  unfold digit_count. intro Hlen.
  destruct (Z_lt_le_dec n 0) as [Hn|Hn].
  - destruct (str_of_Z_neg n Hn) as (ds & E & Hd & Hv). rewrite E in *.
    cbn [filter] in Hlen. change (isdigit "-") with false in Hlen.
    cbv iota in Hlen. rewrite (filter_all isdigit ds (proj2 Hd)) in Hlen.
    rewrite (py_int_minus_digits ds Hd Hlen), Hv. f_equal; lia.
  - destruct (str_of_Z_nonneg n Hn) as [Hd Hv].
    rewrite (filter_all isdigit _ (proj2 Hd)) in Hlen.
    rewrite (py_int_digits _ Hd Hlen), Hv. reflexivity.
Qed.

Lemma split_nonempty (sep : ascii) (x : str) : split sep x <> [].
Proof.
  pose proof (split_length sep x) as H. destruct (split sep x); [discriminate H|discriminate].
Qed.

Lemma split_app (sep : ascii) (x y : str) :
  split sep (x ++ sep :: y) = split sep x ++ split sep y.
Proof.
  induction x as [|c tl IH]; cbn [app split].
  - rewrite Ascii.eqb_refl. reflexivity.
  - destruct (Ascii.eqb c sep); [rewrite IH; reflexivity|].
    rewrite IH. pose proof (split_nonempty sep tl).
    destruct (split sep tl); [congruence|reflexivity].
Qed.

Lemma split_free (sep : ascii) (x : str) :
  contains sep x = false -> split sep x = [x].
Proof.
  unfold contains. induction x as [|c tl IH]; intro H; [reflexivity|].
  cbn [existsb] in H. apply orb_false_iff in H. destruct H as [Hc Htl].
  cbn [split]. rewrite Ascii.eqb_sym, Hc, (IH Htl). reflexivity.
Qed.

Lemma split_once_app (sep : ascii) (x y : str) :
  contains sep x = false -> split_once sep (x ++ sep :: y) = (x, y).
Proof.
  unfold contains. induction x as [|c tl IH]; intro H; cbn [app split_once].
  - rewrite Ascii.eqb_refl. reflexivity.
  - cbn [existsb] in H. apply orb_false_iff in H. destruct H as [Hc Htl].
    rewrite Ascii.eqb_sym, Hc, (IH Htl). reflexivity.
Qed.

Lemma digits_no_char (ds : str) (c : ascii) :
  Forall (fun d => isdigit d = true) ds -> isdigit c = false ->
  contains c ds = false.
Proof.
  intros Hall Hc. unfold contains.
  induction Hall as [|d tl Hd _ IH]; [reflexivity|].
  cbn [existsb]. rewrite IH, orb_false_r.
  rewrite Ascii.eqb_sym. exact (digit_not_char d c Hd Hc).
Qed.

Lemma last_app_nonempty {A : Type} (l1 l2 : list A) (d : A) :
  l2 <> [] -> last (l1 ++ l2) d = last l2 d.
Proof.
  intro H. induction l1 as [|a l1 IH]; [reflexivity|].
  cbn [app]. rewrite last_cons; [exact IH|].
  destruct l1; [exact H|discriminate].
Qed.

(** The text of an integer: not empty, no comma, a digit at its end, no
    blank at its start. *)
Lemma str_of_Z_props (n : Z) :
  str_of_Z n <> [] /\ contains "," (str_of_Z n) = false /\
  (forall d, isdigit (last (str_of_Z n) d) = true) /\
  (forall d, isspace (hd d (str_of_Z n)) = false).
Proof.
  destruct (Z_lt_le_dec n 0) as [Hn|Hn].
  - destruct (str_of_Z_neg n Hn) as (ds & -> & Hd & _).
    destruct (digits_text_ends ds Hd) as (c0 & tl & E & H0 & Hl).
    split; [discriminate|]. split; [|split].
    + unfold contains. cbn [existsb].
      change (existsb (Ascii.eqb ",") ds) with (contains "," ds).
      rewrite (digits_no_char ds "," (proj2 Hd) eq_refl). reflexivity.
    + intro d. rewrite (last_cons ds "-"%char d (proj1 Hd)).
      rewrite (last_default ds d c0 (proj1 Hd)). exact Hl.
    + intro d. reflexivity.
  - destruct (str_of_Z_nonneg n Hn) as [Hd _].
    destruct (digits_text_ends _ Hd) as (c0 & tl & E & H0 & Hl).
    split; [exact (proj1 Hd)|]. split; [|split].
    + exact (digits_no_char _ "," (proj2 Hd) eq_refl).
    + intro d. rewrite (last_default _ d c0 (proj1 Hd)). exact Hl.
    + intro d. rewrite E. cbn [hd]. exact (digit_not_space c0 H0).
Qed.

Lemma parse_part_render (r : Z * Z) :
  0 <= fst r ->
  digit_count (fst r) <= int_max_str_digits ->
  digit_count (snd r) <= int_max_str_digits ->
  parse_part (render_range r) = Some r.
Proof.
  intros Ha Hda Hdb. destruct r as [a b]. cbn [fst snd] in Ha, Hda, Hdb.
  unfold parse_part, render_range. cbn [fst snd lit list_ascii_of_string app].
  destruct (str_of_Z_nonneg a Ha) as [Hd Hv].
  assert (Hfree : contains "-" (str_of_Z a) = false)
    by exact (digits_no_char _ "-" (proj2 Hd) eq_refl).
  unfold contains at 1. rewrite existsb_app. cbn [existsb].
  rewrite Ascii.eqb_refl, orb_true_r.
  rewrite (split_once_app "-" _ _ Hfree).
  rewrite !py_int_str_of_Z by assumption. reflexivity.
Qed.

Lemma strip_render (r : Z * Z) :
  0 <= fst r ->
  strip (render_range r) = render_range r /\ render_range r <> [] /\
  contains "," (render_range r) = false.
Proof.
  intro Ha. destruct r as [a b]. cbn [fst] in Ha.
  unfold render_range. cbn [fst snd lit list_ascii_of_string app].
  destruct (str_of_Z_nonneg a Ha) as [Hd _].
  destruct (digits_text_ends _ Hd) as (c0 & tl & E & H0 & _).
  destruct (str_of_Z_props b) as (Hne & Hcomma & Hlast & _).
  split; [|split].
  - unfold strip, rstrip, lstrip.
    apply (strip_class_id isspace _ c0 (tl ++ "-"%char :: str_of_Z b)).
    + rewrite E. reflexivity.
    + exact (digit_not_space c0 H0).
    + rewrite last_app_nonempty by discriminate.
      rewrite (last_cons _ "-"%char c0 Hne).
      apply digit_not_space. apply Hlast.
  - rewrite E. discriminate.
  - unfold contains. rewrite existsb_app. cbn [existsb].
    change (existsb (Ascii.eqb ",") (str_of_Z a)) with (contains "," (str_of_Z a)).
    change (existsb (Ascii.eqb ",") (str_of_Z b)) with (contains "," (str_of_Z b)).
    rewrite (digits_no_char _ "," (proj2 Hd) eq_refl), Hcomma. reflexivity.
Qed.

Lemma parse_parts_render (rs : list (Z * Z)) :
  Forall (fun r => 0 <= fst r /\
                   digit_count (fst r) <= int_max_str_digits /\
                   digit_count (snd r) <= int_max_str_digits) rs ->
  forall ranges stderr,
    parse_parts (map render_range rs) ranges stderr = (ranges ++ rs, stderr).
Proof.
  induction 1 as [|r rest (Hr & Hda & Hdb) _ IH]; intros ranges stderr.
  - cbn. rewrite app_nil_r. reflexivity.
  - cbn [map parse_parts].
    destruct (strip_render r Hr) as (Hs & Hne & _). rewrite Hs.
    destruct (render_range r) eqn:E; [congruence|]. rewrite <- E.
    rewrite (parse_part_render r Hr Hda Hdb), IH, <- app_assoc. reflexivity.
Qed.

Lemma split_join_render (rs : list (Z * Z)) :
  Forall (fun r => 0 <= fst r) rs -> rs <> [] ->
  split "," (join (lit ",") (map render_range rs)) = map render_range rs.
Proof.
  induction 1 as [|r rest Hr Hrest IH]; intro Hne; [congruence|].
  destruct (strip_render r Hr) as (_ & _ & Hfree).
  destruct rest as [|r' rest'].
  - cbn [map join]. apply split_free; exact Hfree.
  - change (join (lit ",") (map render_range (r :: r' :: rest')))
      with (render_range r ++ ","%char
              :: join (lit ",") (map render_range (r' :: rest'))).
    rewrite split_app, (split_free _ _ Hfree), IH by discriminate.
    reflexivity.
Qed.

(** X6.  Page ranges written as [a-b], joined by commas, are read back as
    they are and without a warning, provided no range starts below zero and
    no number has more digits than [int()] accepts (4300 by default); this
    is the form in which the suggested commands pass their windows. *)
Theorem parse_page_ranges_roundtrip (rs : list (Z * Z))
    (H : Forall (fun r => 0 <= fst r /\
                          digit_count (fst r) <= int_max_str_digits /\
                          digit_count (snd r) <= int_max_str_digits) rs) :
  parse_page_ranges (join (lit ",") (map render_range rs)) = (rs, []).
Proof.
  assert (H0 : Forall (fun r => 0 <= fst r) rs)
    by (apply (Forall_impl _ (fun r Hr => proj1 Hr) H)).
  unfold parse_page_ranges.
  destruct rs as [|r rest]; [reflexivity|].
  rewrite (split_join_render _ H0) by discriminate.
  apply (parse_parts_render _ H).
Qed.

(** The ranges of the usage text, [1-10,50-60,100-110]. *)
Lemma parse_page_ranges_roundtrip_witness :
  Forall (fun r => 0 <= fst r /\
                   digit_count (fst r) <= int_max_str_digits /\
                   digit_count (snd r) <= int_max_str_digits)
    [(1, 10); (50, 60); (100, 110)] /\
  parse_page_ranges (lit "1-10,50-60,100-110")
  = ([(1, 10); (50, 60); (100, 110)], []).
Proof.
  assert (H : Forall (fun r : Z * Z =>
                        0 <= fst r /\
                        digit_count (fst r) <= int_max_str_digits /\
                        digit_count (snd r) <= int_max_str_digits)
                [(1, 10); (50, 60); (100, 110)])
    by (repeat constructor; vm_compute; discriminate).
  split; [exact H|].
  exact (parse_page_ranges_roundtrip [(1, 10); (50, 60); (100, 110)] H).
Defined.

Lemma parse_parts_acc (parts : list str) (ranges : list (Z * Z))
    (stderr : list str) :
  parse_parts parts ranges stderr
  = (ranges ++ fst (parse_parts parts [] []),
     stderr ++ snd (parse_parts parts [] [])).
Proof.
  revert ranges stderr.
  induction parts as [|part rest IH]; intros ranges stderr.
  - cbn. rewrite !app_nil_r. reflexivity.
  - cbn [parse_parts].
    destruct (strip part) as [|c tl]; [apply IH|].
    destruct (parse_part (c :: tl)) as [r|].
    + rewrite (IH (ranges ++ [r])), (IH ([] ++ [r])). cbn [fst snd app].
      rewrite <- app_assoc. reflexivity.
    + rewrite (IH ranges (stderr ++ _)), (IH [] ([] ++ _)). cbn [fst snd app].
      rewrite <- app_assoc. reflexivity.
Qed.

Lemma parse_parts_app (p1 p2 : list str) (ranges : list (Z * Z))
    (stderr : list str) :
  parse_parts (p1 ++ p2) ranges stderr
  = parse_parts p2 (fst (parse_parts p1 ranges stderr))
                   (snd (parse_parts p1 ranges stderr)).
Proof.
  revert ranges stderr.
  induction p1 as [|part rest IH]; intros ranges stderr; [reflexivity|].
  cbn [app parse_parts].
  destruct (strip part) as [|c tl]; [apply IH|].
  destruct (parse_part (c :: tl)); apply IH.
Qed.

Lemma parse_parts_count (parts : list str) :
  (List.length (fst (parse_parts parts [] []))
   + List.length (snd (parse_parts parts [] [])) <= List.length parts)%nat.
Proof.
  induction parts as [|part rest IH]; [cbn; lia|].
  cbn [parse_parts List.length].
  destruct (strip part) as [|c tl]; [lia|].
  destruct (parse_part (c :: tl)) as [r|];
    rewrite parse_parts_acc; cbn [fst snd]; rewrite ?length_app;
    cbn [List.length app]; lia.
Qed.

Lemma strip_blank (x : str) :
  Forall (fun c => isspace c = true) x -> strip x = [].
Proof.
  intro H. unfold strip, rstrip, lstrip.
  assert (E : dropwhile isspace x = []).
  { induction H as [|c tl Hc _ IH]; [reflexivity|].
    cbn [dropwhile]. rewrite Hc. exact IH. }
  rewrite E. reflexivity.
Qed.

(** X7.  The comma-separated parts are read independently of one another:
    the ranges and the warnings of [x,y] are those of [x] followed by those
    of [y], so an invalid part never disturbs its neighbours; a blank text
    gives no range and no warning; and there is at most one range or warning
    per part. *)
Theorem parse_page_ranges_parts (x y : str) :
  parse_page_ranges (x ++ ","%char :: y)
  = (fst (parse_page_ranges x) ++ fst (parse_page_ranges y),
     snd (parse_page_ranges x) ++ snd (parse_page_ranges y)) /\
  (Forall (fun c => isspace c = true) x -> parse_page_ranges x = ([], [])) /\
  (List.length (fst (parse_page_ranges x))
   + List.length (snd (parse_page_ranges x))
   <= S (count_occ ascii_dec x ","%char))%nat.
Proof.
  unfold parse_page_ranges. split; [|split].
  - rewrite split_app, parse_parts_app, parse_parts_acc. reflexivity.
  - intro Hx.
    assert (Hfree : contains "," x = false).
    { unfold contains. induction Hx as [|c tl Hc _ IH]; [reflexivity|].
      cbn [existsb]. rewrite IH, orb_false_r.
      destruct (Ascii.eqb_spec "," c) as [<-|]; [discriminate Hc|reflexivity]. }
    rewrite (split_free _ _ Hfree). cbn [parse_parts].
    rewrite (strip_blank x Hx). reflexivity.
  - rewrite <- split_length. apply parse_parts_count.
Qed.

(** A blank text. *)
Lemma parse_page_ranges_parts_witness :
  Forall (fun c => isspace c = true) (lit "  ") /\
  parse_page_ranges (lit "  ") = ([], []).
Proof.
  assert (H : Forall (fun c => isspace c = true) (lit "  "))
    by (repeat constructor).
  split; [exact H|].
  exact (proj1 (proj2 (parse_page_ranges_parts (lit "  ") [])) H).
Defined.

(** X8.  A part that starts with a dash is never a range: the text before
    the first dash is empty and is no integer.  In particular a range whose
    first page is negative, written [a-b], is dropped with a warning. *)
Theorem leading_dash_is_invalid (a b : Z) (H : a < 0) :
  (forall x, parse_part ("-"%char :: x) = None) /\
  parse_page_ranges (render_range (a, b))
  = ([], [invalid_range_warning (render_range (a, b))]).
Proof.
  assert (Hdash : forall x, parse_part ("-"%char :: x) = None).
  { intro x. unfold parse_part, contains. cbn [existsb Ascii.eqb Bool.eqb orb].
    cbn [split_once Ascii.eqb Bool.eqb]. reflexivity. }
  split; [exact Hdash|].
  unfold parse_page_ranges, render_range.
  cbn [fst snd lit list_ascii_of_string app].
  destruct (str_of_Z_neg a H) as (ds & E & Hd & _). rewrite E.
  destruct (str_of_Z_props b) as (Hne & Hcomma & Hlast & _).
  assert (Hfree : contains ","
                    ("-"%char :: ds ++ "-"%char :: str_of_Z b) = false).
  { unfold contains. cbn [existsb]. rewrite existsb_app. cbn [existsb].
    change (existsb (Ascii.eqb ",") ds) with (contains "," ds).
    change (existsb (Ascii.eqb ",") (str_of_Z b)) with (contains "," (str_of_Z b)).
    rewrite (digits_no_char ds "," (proj2 Hd) eq_refl), Hcomma. reflexivity. }
  change (("-"%char :: ds) ++ "-"%char :: str_of_Z b)
    with ("-"%char :: ds ++ "-"%char :: str_of_Z b).
  rewrite (split_free _ _ Hfree). cbn [parse_parts].
  assert (Hs : strip ("-"%char :: ds ++ "-"%char :: str_of_Z b)
               = "-"%char :: ds ++ "-"%char :: str_of_Z b).
  { unfold strip, rstrip, lstrip.
    apply (strip_class_id isspace _ "-"%char (ds ++ "-"%char :: str_of_Z b));
      [reflexivity|reflexivity|].
    rewrite last_cons by (destruct ds; discriminate).
    rewrite last_app_nonempty by discriminate.
    rewrite (last_cons _ "-"%char "-"%char Hne).
    apply digit_not_space. apply Hlast. }
  rewrite Hs, Hdash. reflexivity.
Qed.

(** The range from page -1 to page 5. *)
Lemma leading_dash_is_invalid_witness :
  -1 < 0 /\
  parse_page_ranges (lit "-1-5") = ([], [invalid_range_warning (lit "-1-5")]).
Proof.
  split; [lia|].
  exact (proj2 (leading_dash_is_invalid (-1) 5 ltac:(lia))).
Defined.

(** * Properties of the page selection and of the extraction loop *)

Lemma range_from_in (a b p : Z) : In p (range_from a b) <-> a <= p < b.
Proof.
  unfold range_from. rewrite in_map_iff. split.
  - intros (i & <- & Hi). apply in_seq in Hi. lia.
  - intro H. exists (Z.to_nat (p - a)). split; [lia|].
    apply in_seq. lia.
Qed.

Lemma range_from_sorted (a b : Z) : StronglySorted Z.lt (range_from a b).
Proof.
  unfold range_from. generalize (Z.to_nat (b - a)) as n. generalize 0%nat as k.
  intros k n; revert k; induction n as [|n IH]; intro k; cbn [seq map];
    constructor; [apply IH|].
  apply Forall_forall. intros x Hx. apply in_map_iff in Hx.
  destruct Hx as (i & <- & Hi). apply in_seq in Hi. lia.
Qed.

Lemma set_add_in (p q : Z) (s : list Z) :
  In q (set_add p s) <-> q = p \/ In q s.
Proof.
  unfold set_add. destruct (existsb (Z.eqb p) s) eqn:E.
  - split; [tauto|]. intros [->|H]; [|exact H].
    apply existsb_exists in E. destruct E as (x & Hx & Hpx).
    apply Z.eqb_eq in Hpx. subst x. exact Hx.
  - cbn [In]. split; intros [H|H]; auto.
Qed.

Lemma set_add_nodup (p : Z) (s : list Z) : NoDup s -> NoDup (set_add p s).
Proof.
  intro H. unfold set_add. destruct (existsb (Z.eqb p) s) eqn:E; [exact H|].
  constructor; [|exact H]. intro Hin.
  assert (existsb (Z.eqb p) s = true)
    by (apply existsb_exists; exists p; split; [exact Hin|apply Z.eqb_refl]).
  congruence.
Qed.

Lemma add_all_spec (l s : list Z) :
  NoDup s ->
  NoDup (fold_left (fun s p => set_add p s) l s) /\
  forall q, In q (fold_left (fun s p => set_add p s) l s) <-> In q l \/ In q s.
Proof.
  revert s; induction l as [|p l IH]; intros s Hs; cbn [fold_left].
  - split; [exact Hs|]. intro q; cbn; tauto.
  - destruct (IH (set_add p s) (set_add_nodup p s Hs)) as [Hn Hin].
    split; [exact Hn|]. intro q. rewrite Hin, set_add_in. cbn [In].
    split; intros [H|H]; try tauto; destruct H; auto.
Qed.

Lemma add_ranges_spec (total : Z) (rs : list (Z * Z)) (s : list Z) :
  NoDup s ->
  NoDup (fold_left (add_range total) rs s) /\
  forall q, In q (fold_left (add_range total) rs s) <->
            (1 <= q <= total /\ exists r, In r rs /\ fst r <= q <= snd r)
            \/ In q s.
Proof.
  revert s; induction rs as [|r rs IH]; intros s Hs; cbn [fold_left].
  - split; [exact Hs|]. intro q. split; [tauto|].
    intros [(_ & r & [] & _)|H]; exact H.
  - unfold add_range at 2 4.
    destruct (add_all_spec
                (range_from (Z.max 1 (fst r)) (Z.min total (snd r) + 1)) s Hs)
      as [Hn Hin].
    destruct (IH _ Hn) as [Hn' Hin'].
    split; [exact Hn'|]. intro q. rewrite Hin', Hin, range_from_in.
    split.
    + intros [(Hq & r' & Hr' & Hqr)|[Hq|Hq]].
      * left. split; [exact Hq|]. exists r'. split; [right; exact Hr'|exact Hqr].
      * left. split; [lia|]. exists r. split; [left; reflexivity|lia].
      * right; exact Hq.
    + intros [(Hq & r' & [<-|Hr'] & Hqr)|Hq].
      * right; left. lia.
      * left. split; [exact Hq|]. exists r'. split; [exact Hr'|exact Hqr].
      * right; right; exact Hq.
Qed.

Lemma insert_sorted_in (p q : Z) (l : list Z) :
  In q (insert_sorted p l) <-> q = p \/ In q l.
Proof.
  induction l as [|x l IH]; cbn [insert_sorted In]; [intuition|].
  destruct (p <=? x); cbn [In]; [intuition|]. rewrite IH. intuition.
Qed.

Lemma insert_sorted_sorted (p : Z) (l : list Z) :
  StronglySorted Z.lt l -> ~ In p l ->
  StronglySorted Z.lt (insert_sorted p l).
Proof.
  induction l as [|x l IH]; intros Hs Hp; cbn [insert_sorted].
  - repeat constructor.
  - inversion Hs as [|? ? Hs' Hf]; subst.
    destruct (Z.leb_spec p x) as [Hle|Hgt].
    + assert (p < x) by (assert (p <> x) by (intro; apply Hp; left; auto); lia).
      constructor; [exact Hs|]. constructor; [assumption|].
      rewrite Forall_forall in *. intros y Hy. specialize (Hf y Hy). lia.
    + constructor; [apply IH; [exact Hs'|intro; apply Hp; right; assumption]|].
      apply Forall_forall. intros y Hy. apply insert_sorted_in in Hy.
      destruct Hy as [->|Hy]; [lia|].
      rewrite Forall_forall in Hf. exact (Hf y Hy).
Qed.

Lemma sorted_spec (l : list Z) :
  NoDup l ->
  StronglySorted Z.lt (sorted l) /\ forall q, In q (sorted l) <-> In q l.
Proof.
  induction 1 as [|x l Hx _ [IHs IHin]]; cbn [sorted fold_right].
  - split; [constructor|tauto].
  - change (fold_right insert_sorted [] l) with (sorted l).
    split.
    + apply insert_sorted_sorted; [exact IHs|]. rewrite IHin. exact Hx.
    + intro q. rewrite insert_sorted_in, IHin. cbn [In]. intuition.
Qed.

(** X9.  The pages to read are listed in strictly ascending order, each
    once, and all lie in the document.  With ranges given they are exactly
    the pages of the document that some range contains; without (no option,
    or no valid range) they are the first ten pages of the document. *)
Theorem pages_to_read_spec (page_ranges : option (list (Z * Z))) (total : Z) :
  let pages := pages_to_read page_ranges total in
  StronglySorted Z.lt pages /\
  forall p, In p pages <->
    1 <= p <= total /\
    match page_ranges with
    | Some (r :: rs) => exists r', In r' (r :: rs) /\ fst r' <= p <= snd r'
    | _ => p <= 10
    end.
Proof.
  cbv zeta. unfold pages_to_read.
  assert (Hdefault :
    StronglySorted Z.lt (range_from 1 (Z.min 11 (total + 1))) /\
    forall p, In p (range_from 1 (Z.min 11 (total + 1))) <->
              1 <= p <= total /\ p <= 10).
  { split; [apply range_from_sorted|]. intro p. rewrite range_from_in. lia. }
  destruct page_ranges as [[|r rs]|]; [exact Hdefault| |exact Hdefault].
  destruct (add_ranges_spec total (r :: rs) [] (NoDup_nil Z)) as [Hn Hin].
  destruct (sorted_spec _ Hn) as [Hs Hin'].
  split; [exact Hs|]. intro p. rewrite Hin', Hin. cbn [In]. tauto.
Qed.

Lemma pages_to_read_bounds (page_ranges : option (list (Z * Z)))
    (total p : Z) :
  In p (pages_to_read page_ranges total) -> 1 <= p <= total.
Proof.
  unfold pages_to_read.
  assert (Hdefault : In p (range_from 1 (Z.min 11 (total + 1))) ->
                     1 <= p <= total)
    by (rewrite range_from_in; lia).
  destruct page_ranges as [[|r rs]|]; [exact Hdefault| |exact Hdefault].
  destruct (add_ranges_spec total (r :: rs) [] (NoDup_nil Z)) as [Hn Hin].
  destruct (sorted_spec _ Hn) as [_ Hin'].
  rewrite Hin', Hin. cbn [In]. tauto.
Qed.

Lemma getitem_page (doc : list str) (p : Z) :
  1 <= p <= len doc -> getitem doc (p - 1) = Some (page_text doc p).
Proof.
  intro H. unfold getitem, page_text, len in *.
  destruct (Z.ltb_spec (p - 1) 0); [lia|].
  apply nth_error_nth'. lia.
Qed.

Lemma page_costs_nonneg (doc : list str) (pages : list Z) :
  0 <= total_of (map (fun p => len (page_text doc p) + 100) pages).
Proof.
  induction pages as [|p rest IH]; cbn [map total_of fold_right]; [lia|].
  change (fold_right Z.add 0 (map (fun p => len (page_text doc p) + 100) rest))
    with (total_of (map (fun p => len (page_text doc p) + 100) rest)).
  unfold len at 1. lia.
Qed.

Lemma extract_loop_runs (doc : list str) (total max_chars : Z)
    (pages : list Z) :
  (forall p, In p pages -> 1 <= p <= len doc) ->
  forall out cc,
    exists out' cc',
      extract_loop doc total max_chars pages out cc = Some (out', cc') /\
      cc <= cc' /\
      (cc <= Z.max 0 (max_chars + 112) -> cc' <= Z.max 0 (max_chars + 112)) /\
      (List.length out' <= List.length out + 4 * List.length pages + 1)%nat.
Proof.
  induction pages as [|p rest IH]; intros Hp out cc; cbn [extract_loop].
  - exists out, cc. repeat split; cbn [List.length]; lia.
  - destruct (Z.geb_spec cc max_chars) as [Hge|Hlt].
    + eexists _, cc. split; [reflexivity|].
      rewrite length_app. cbn [List.length]. repeat split; lia.
    + rewrite (getitem_page doc p (Hp p (or_introl eq_refl))). cbv zeta.
      set (text := page_text doc p).
      set (text' := if len text >? max_chars - cc
                    then slice_to text (max_chars - cc) ++ truncated_mark
                    else text).
      assert (Hlen : 0 <= len text' <= max_chars - cc + 12).
      { subst text'. destruct (Z.gtb_spec (len text) (max_chars - cc)).
        - unfold slice_to. destruct (Z.ltb_spec (max_chars - cc) 0); [lia|].
          unfold len in *. rewrite length_app, length_firstn.
          change (List.length truncated_mark) with 12%nat. lia.
        - unfold len in *. lia. }
      destruct (IH (fun q Hq => Hp q (or_intror Hq))
                  ((out ++ page_header p total) ++ [text'])
                  (cc + len text' + 100))
        as (out' & cc' & E & Hcc & Hb & Hl).
      exists out', cc'. split; [exact E|].
      rewrite !length_app in Hl. cbn [List.length page_header] in Hl.
      cbn [List.length]. repeat split; lia.
Qed.

(** X10.  Extraction never fails on a page access, whatever ranges and
    limit are given: every page it reads is a page of the document.  The
    character count it reports is at most [max_chars + 112] (the mark of a
    cut page and the allowance of the last heading), and the output has at
    most four lines per page to read plus the line of the limit.  With a
    limit of zero or less no page is output. *)
Theorem extract_pages_safe (doc : list str)
    (page_ranges : option (list (Z * Z))) (max_chars : Z) :
  exists out cc,
    extract_pages doc page_ranges max_chars = Some (out, cc) /\
    0 <= cc <= Z.max 0 (max_chars + 112) /\
    (List.length out
     <= 4 * List.length (pages_to_read page_ranges (len doc)) + 1)%nat /\
    (max_chars <= 0 ->
     cc = 0 /\
     out = match pages_to_read page_ranges (len doc) with
           | [] => []
           | _ => [limit_line max_chars]
           end).
Proof.
  unfold extract_pages. cbv zeta.
  destruct (extract_loop_runs doc (len doc) max_chars
              (pages_to_read page_ranges (len doc))
              (pages_to_read_bounds page_ranges (len doc)) [] 0)
    as (out & cc & E & Hcc & Hb & Hl).
  exists out, cc. split; [exact E|]. cbn [List.length] in Hl.
  split; [lia|]. split; [lia|].
  intro Hmax. destruct (pages_to_read page_ranges (len doc)) as [|p rest].
  - cbn in E. injection E as <- <-. split; reflexivity.
  - cbn [extract_loop] in E.
    destruct (Z.geb_spec 0 max_chars); [|lia].
    injection E as <- <-. split; reflexivity.
Qed.

Lemma extract_loop_fits (doc : list str) (total max_chars : Z)
    (pages : list Z) :
  (forall p, In p pages -> 1 <= p <= len doc) ->
  forall out cc,
    cc + total_of (map (fun p => len (page_text doc p) + 100) pages)
      < max_chars + 100 ->
    extract_loop doc total max_chars pages out cc
    = Some (out ++ flat_map (fun p => page_header p total ++ [page_text doc p])
                     pages,
            cc + total_of (map (fun p => len (page_text doc p) + 100) pages)).
Proof.
  induction pages as [|p rest IH]; intros Hp out cc Hfit;
    cbn [extract_loop map flat_map total_of fold_right].
  - rewrite app_nil_r, Z.add_0_r. reflexivity.
  - change (fold_right Z.add 0
              (map (fun p => len (page_text doc p) + 100) rest))
      with (total_of (map (fun p => len (page_text doc p) + 100) rest)) in *.
    cbn [map total_of fold_right] in Hfit.
    change (fold_right Z.add 0
              (map (fun p => len (page_text doc p) + 100) rest))
      with (total_of (map (fun p => len (page_text doc p) + 100) rest)) in Hfit.
    pose proof (page_costs_nonneg doc rest) as Hrest.
    assert (0 <= len (page_text doc p)) by (unfold len; lia).
    destruct (Z.geb_spec cc max_chars) as [Hge|Hlt]; [lia|].
    rewrite (getitem_page doc p (Hp p (or_introl eq_refl))). cbv zeta.
    destruct (Z.gtb_spec (len (page_text doc p)) (max_chars - cc)); [lia|].
    rewrite (IH (fun q Hq => Hp q (or_intror Hq))) by lia.
    f_equal. f_equal; [|lia].
    rewrite <- !app_assoc. reflexivity.
Qed.

(** X11.  When the pages to read fit the limit, counting 100 characters of
    heading for each but the last, every one of them is output whole, under
    its heading, in ascending order: nothing is cut and no limit line is
    added. *)
Theorem extract_pages_within_limit (doc : list str)
    (page_ranges : option (list (Z * Z))) (max_chars : Z)
    (H : total_of (map (fun p => len (page_text doc p) + 100)
                     (pages_to_read page_ranges (len doc)))
         < max_chars + 100) :
  extract_pages doc page_ranges max_chars
  = Some (flat_map (fun p => page_header p (len doc) ++ [page_text doc p])
            (pages_to_read page_ranges (len doc)),
          total_of (map (fun p => len (page_text doc p) + 100)
                      (pages_to_read page_ranges (len doc)))).
Proof.
  unfold extract_pages. cbv zeta.
  rewrite (extract_loop_fits doc (len doc) max_chars _
             (pages_to_read_bounds page_ranges (len doc)) [] 0) by lia.
  reflexivity.
Qed.

(** Two short pages under the default limit of 10000 characters. *)
Lemma extract_pages_within_limit_witness :
  let doc := [lit "first page"; lit "second"] in
  total_of (map (fun p => len (page_text doc p) + 100)
              (pages_to_read None (len doc))) < 10000 + 100 /\
  extract_pages doc None 10000
  = Some (page_header 1 2 ++ [lit "first page"]
          ++ page_header 2 2 ++ [lit "second"], 216).
Proof.
  cbv zeta. split; [vm_compute; reflexivity|].
  rewrite (extract_pages_within_limit [lit "first page"; lit "second"]
             None 10000) by (vm_compute; reflexivity).
  vm_compute. reflexivity.
Defined.

(** * Properties of the fetch limits *)

Lemma apply_limits_body (content : str) (max_chars start : Z) :
  0 <= max_chars ->
  let r := apply_limits content max_chars start in
  let rest := skipn (Z.to_nat start) content in
  truncated r = (len rest >? max_chars) /\
  limited_content r
  = (if truncated r
     then firstn (Z.to_nat max_chars) rest ++ truncation_note max_chars
     else rest) /\
  firstn (Z.to_nat max_chars) (limited_content r)
  = firstn (Z.to_nat max_chars) rest.
Proof.
  intro Hmax. cbv zeta. unfold apply_limits. cbv zeta.
  assert (E : (if start >? 0 then slice_from content start else content)
              = skipn (Z.to_nat start) content).
  { destruct (Z.gtb_spec start 0) as [Hs|Hs].
    - unfold slice_from. destruct (Z.ltb_spec start 0); [lia|reflexivity].
    - replace (Z.to_nat start) with 0%nat by lia. reflexivity. }
  rewrite E. set (rest := skipn (Z.to_nat start) content).
  destruct (Z.gtb_spec (len rest) max_chars) as [Hgt|Hle];
    cbn [truncated limited_content].
  - split; [reflexivity|].
    unfold slice_to. destruct (Z.ltb_spec max_chars 0); [lia|].
    split; [reflexivity|].
    rewrite firstn_app, firstn_firstn, length_firstn.
    unfold len in Hgt.
    replace (Z.to_nat max_chars
             - Nat.min (Z.to_nat max_chars) (List.length rest))%nat
      with 0%nat by lia.
    rewrite Nat.min_id, firstn_O, app_nil_r. reflexivity.
  - split; [reflexivity|]. split; reflexivity.
Qed.

(** X12.  With a limit of zero or more, the fetched content is cut to the
    window that starts [start] characters in and is [max_chars] long: the
    result begins with that window, it is the whole rest of the content
    when the rest fits, and otherwise the window followed by the truncation
    note.  A start of zero or less is no offset at all. *)
Theorem apply_limits_window (content : str) (max_chars start : Z)
    (H : 0 <= max_chars) :
  let r := apply_limits content max_chars start in
  let rest := skipn (Z.to_nat start) content in
  firstn (Z.to_nat max_chars) (limited_content r)
  = firstn (Z.to_nat max_chars) rest /\
  truncated r = (len content - Z.max 0 start >? max_chars) /\
  (truncated r = false -> limited_content r = rest) /\
  (truncated r = true ->
   limited_content r
   = firstn (Z.to_nat max_chars) rest ++ truncation_note max_chars) /\
  start_offset r = (if start >? 0 then Some start else None) /\
  (start <= 0 -> rest = content).
Proof.
  cbv zeta.
  destruct (apply_limits_body content max_chars start H) as (Ht & Hc & Hf).
  cbv zeta in Ht, Hc, Hf.
  split; [exact Hf|]. split; [|split; [|split; [|split]]].
  - rewrite Ht. unfold len. rewrite length_skipn.
    destruct (Z.gtb_spec (Z.of_nat (List.length content - Z.to_nat start))
                max_chars),
             (Z.gtb_spec (Z.of_nat (List.length content) - Z.max 0 start)
                max_chars); try reflexivity; lia.
  - intro E. rewrite Hc, E. reflexivity.
  - intro E. rewrite Hc, E. reflexivity.
  - unfold apply_limits. cbv zeta.
    match goal with |- start_offset (if ?b then _ else _) = _ =>
      destruct b end; reflexivity.
  - intro Hs. replace (Z.to_nat start) with 0%nat by lia. reflexivity.
Qed.

(** Five characters from offset 2 of a ten-character text. *)
Lemma apply_limits_window_witness :
  0 <= 5 /\
  firstn 5 (limited_content (apply_limits (lit "0123456789") 5 2))
  = lit "23456".
Proof.
  split; [lia|].
  exact (proj1 (apply_limits_window (lit "0123456789") 5 2 ltac:(lia))).
Defined.

Lemma chunks_rebuild {A : Type} (m : nat) (l : list A) :
  (0 < m)%nat ->
  forall n, (List.length l <= n * m)%nat ->
    List.concat (map (fun k => firstn m (skipn (k * m) l)) (seq 0 n)) = l.
Proof.
  intro Hm. intro n; revert l; induction n as [|n IH]; intros l Hl.
  - destruct l; [reflexivity|cbn in Hl; lia].
  - cbn [seq map List.concat]. cbn [Nat.mul skipn].
    rewrite <- seq_shift, map_map.
    transitivity (firstn m l ++ skipn m l); [|apply firstn_skipn].
    f_equal.
    etransitivity; [|apply (IH (skipn m l)); rewrite length_skipn; lia].
    f_equal. apply map_ext. intro k.
    rewrite skipn_skipn. do 2 f_equal. lia.
Qed.

(** X13.  Reading a text window after window, each [max_chars > 0] long and
    starting where the last one ended, and keeping the first [max_chars]
    characters of each result, gives the text back. *)
Theorem windows_rebuild_content (content : str) (max_chars : Z) (n : nat)
    (Hm : 0 < max_chars) (Hn : len content <= Z.of_nat n * max_chars) :
  List.concat
    (map (fun k => firstn (Z.to_nat max_chars)
                     (limited_content
                        (apply_limits content max_chars (k * max_chars))))
         (range n))
  = content.
Proof.
  unfold range. rewrite map_map.
  transitivity
    (List.concat
       (map (fun k => firstn (Z.to_nat max_chars)
                        (skipn (k * Z.to_nat max_chars) content))
            (seq 0 n))).
  - f_equal. apply map_ext. intro k.
    destruct (apply_limits_body content max_chars (Z.of_nat k * max_chars)
                ltac:(lia)) as (_ & _ & Hf).
    cbv zeta in Hf. rewrite Hf. do 2 f_equal. nia.
  - apply chunks_rebuild; [lia|]. unfold len in Hn. nia.
Qed.

(** A ten-character text read four characters at a time. *)
Lemma windows_rebuild_content_witness :
  0 < 4 /\ len (lit "0123456789") <= Z.of_nat 3 * 4 /\
  firstn 4 (limited_content (apply_limits (lit "0123456789") 4 0))
  ++ firstn 4 (limited_content (apply_limits (lit "0123456789") 4 4))
  ++ firstn 4 (limited_content (apply_limits (lit "0123456789") 4 8))
  = lit "0123456789".
Proof.
  split; [lia|]. split; [vm_compute; discriminate|].
  pose proof (windows_rebuild_content (lit "0123456789") 4 3 ltac:(lia)
                ltac:(vm_compute; discriminate)) as E.
  cbn [range seq map List.concat Z.of_nat] in E.
  rewrite app_nil_r in E. exact E.
Defined.

(** The windows computed from the length of a text lie inside it, and the
    last one reaches its end. *)
Lemma url_windows_of_length (content : str) :
  exists ws,
    url_windows (len content) = Returns ws /\
    List.length ws = 5%nat /\
    Forall (fun w => 0 <= fst w /\ 0 <= snd w /\
                     fst w + snd w <= len content) ws /\
    let w := last ws (0, 0) in
    fst w + snd w = len content /\
    apply_limits content (snd w) (fst w)
    = {| limited_content := skipn (Z.to_nat (fst w)) content;
         start_offset := if fst w >? 0 then Some (fst w) else None;
         truncated := false |}.
Proof.
  set (L := len content).
  assert (HL : 0 <= L) by (unfold L, len; lia).
  assert (0 <= L / 10 <= L)
    by (split; [apply Z.div_pos|apply Z.div_le_upper_bound]; lia).
  assert (0 <= L / 4) by (apply Z.div_pos; lia).
  assert (0 <= L / 2) by (apply Z.div_pos; lia).
  assert (0 <= 3 * L / 4) by (apply Z.div_pos; lia).
  assert (L / 4 + L / 10 <= L).
  { pose proof (Z.mul_div_le L 4 ltac:(lia)).
    pose proof (Z.mul_div_le L 10 ltac:(lia)). lia. }
  assert (L / 2 + L / 10 <= L).
  { pose proof (Z.mul_div_le L 2 ltac:(lia)).
    pose proof (Z.mul_div_le L 10 ltac:(lia)). lia. }
  assert (3 * L / 4 + L / 10 <= L).
  { pose proof (Z.mul_div_le (3 * L) 4 ltac:(lia)).
    pose proof (Z.mul_div_le L 10 ltac:(lia)). lia. }
  eexists. split; [reflexivity|]. split; [reflexivity|]. split.
  - repeat constructor; cbn [fst snd]; lia.
  - cbn [last fst snd]. split; [lia|].
    destruct (apply_limits_body content (L / 10) (L - L / 10) ltac:(lia))
      as (Ht & Hc & _).
    cbv zeta in Ht, Hc.
    assert (Hfalse : truncated (apply_limits content (L / 10) (L - L / 10))
                     = false).
    { rewrite Ht. unfold len. rewrite length_skipn.
      destruct (Z.gtb_spec
                  (Z.of_nat (List.length content - Z.to_nat (L - L / 10)))
                  (L / 10)); [|reflexivity].
      unfold L, len in *. lia. }
    rewrite Hfalse in Hc.
    unfold apply_limits in *. cbv zeta in *.
    match goal with |- (if ?b then _ else _) = _ => destruct b end;
      cbn [truncated limited_content] in *; [discriminate Hfalse|].
    rewrite Hc. reflexivity.
Qed.

(** X14.  For a text that is not empty and whose reported length is its own
    (a page that is not converted from HTML, so that [actual_length] is the
    length of the text the limits apply to), [main] takes the length from
    [actual_length], whatever the [Content-Length] header says, and
    suggests five fetch windows that lie inside the text: offset and size
    are not negative and the window ends at or before the end of the text;
    the last window ends exactly at the end, so fetching it returns the
    tail whole, with no truncation note. *)
Theorem url_windows_inside (content : str) (header : option str)
    (info : FetchInfo) (Hne : content <> [])
    (Hinfo : info = requests_info content header \/ info = curl_info content) :
  exists ws,
    suggested_windows info = Returns (Some ws) /\
    List.length ws = 5%nat /\
    Forall (fun w => 0 <= fst w /\ 0 <= snd w /\
                     fst w + snd w <= len content) ws /\
    let w := last ws (0, 0) in
    fst w + snd w = len content /\
    apply_limits content (snd w) (fst w)
    = {| limited_content := skipn (Z.to_nat (fst w)) content;
         start_offset := if fst w >? 0 then Some (fst w) else None;
         truncated := false |}.
Proof.
  destruct (url_windows_of_length content) as (ws & Hws & Hrest).
  exists ws. split; [|exact Hrest].
  assert (Hlen : (len content =? 0) = false).
  { apply Z.eqb_neq. unfold len. destruct content; [congruence|cbn; lia]. }
  unfold suggested_windows, info_length.
  destruct Hinfo as [-> | ->];
    cbn [actual_length content_length requests_info curl_info];
    rewrite Hlen, Hws; reflexivity.
Qed.

(** A ten-character text fetched by [curl]. *)
Lemma url_windows_inside_witness :
  lit "0123456789" <> [] /\
  exists ws,
    suggested_windows (curl_info (lit "0123456789")) = Returns (Some ws) /\
    List.length ws = 5%nat /\
    Forall (fun w => 0 <= fst w /\ 0 <= snd w /\ fst w + snd w <= 10) ws.
Proof.
  assert (Hne : lit "0123456789" <> []) by discriminate.
  split; [exact Hne|].
  destruct (url_windows_inside (lit "0123456789") None
              (curl_info (lit "0123456789")) Hne (or_intror eq_refl))
    as (ws & Hws & Hn & Hin & _).
  exists ws. split; [exact Hws|]. split; [exact Hn|exact Hin].
Defined.


(** * Properties of the matcher *)

(** Every success of the matcher on [r] is a success of what follows [r],
    after a step through [r]. *)
Lemma rmatch_sound (ml : bool) (r : regex) :
  forall cur caps k m,
    rmatch ml r cur caps k = Some m ->
    exists taken cur' caps',
      k cur' caps' = Some m /\ steps r cur caps taken cur' caps'.
Proof.
  induction r as [|p|r1 IH1 r2 IH2|r1 IH1 r2 IH2|r1 IH1|n r1 IH1| |];
    intros cur caps k m H; cbn [rmatch] in H.
  - exists [], cur, caps. split; [exact H|].
    repeat split; cbn; try lia; try (intros b E; injection E as <-; lia).
  - destruct cur as [prev x]. cbn [snd] in H. destruct x as [|c tl];
      [discriminate|].
    destruct (p c); [|discriminate].
    exists [c], (Some c, tl), caps. split; [exact H|].
    repeat split; cbn; try lia; try (intros b E; injection E as <-; lia).
  - destruct (IH1 _ _ _ _ H) as (t1 & cur1 & caps1 & H1 & S1 & L1 & U1 & G1).
    destruct (IH2 _ _ _ _ H1) as (t2 & cur2 & caps2 & H2 & S2 & L2 & U2 & G2).
    exists (t1 ++ t2), cur2, caps2. split; [exact H2|].
    unfold steps. cbn [min_len max_len groups].
    split; [rewrite S1, S2, app_assoc; reflexivity|].
    split; [rewrite length_app; lia|]. split.
    + intros b E. destruct (max_len r1) as [a1|]; [|discriminate].
      destruct (max_len r2) as [a2|]; [|discriminate]. injection E as <-.
      rewrite length_app. specialize (U1 _ eq_refl). specialize (U2 _ eq_refl).
      lia.
    + intros n Hn. rewrite G2, G1; [reflexivity| |];
        intro Hin; apply Hn; apply in_or_app; auto.
  - assert (Hboth : exists r', (r' = r1 \/ r' = r2) /\
                      rmatch ml r' cur caps k = Some m).
    { destruct (rmatch ml r1 cur caps k) as [res|] eqn:E.
      - exists r1. split; [left; reflexivity|]. rewrite E. exact H.
      - exists r2. split; [right; reflexivity|exact H]. }
    destruct Hboth as (r' & Hr' & Hm).
    assert (Hstep : exists taken cur' caps',
              k cur' caps' = Some m /\ steps r' cur caps taken cur' caps')
      by (destruct Hr' as [-> | ->]; [exact (IH1 _ _ _ _ Hm)|exact (IH2 _ _ _ _ Hm)]).
    destruct Hstep as (t1 & cur1 & caps1 & H1 & S1 & L1 & U1 & G1).
    exists t1, cur1, caps1. split; [exact H1|].
    unfold steps. cbn [min_len max_len groups].
    split; [exact S1|]. split; [destruct Hr' as [-> | ->]; lia|]. split.
    + intros b E. destruct (max_len r1) as [a1|] eqn:E1; [|discriminate].
      destruct (max_len r2) as [a2|] eqn:E2; [|discriminate]. injection E as <-.
      destruct Hr' as [-> | ->];
        [specialize (U1 _ E1)|specialize (U1 _ E2)]; lia.
    + intros n Hn. apply G1. intro Hin. apply Hn. apply in_or_app.
      destruct Hr' as [-> | ->]; auto.
  - revert H. generalize (List.length (snd cur)) as fuel.
    intro fuel; revert cur caps; induction fuel as [|fuel IHf];
      intros cur caps H; cbn [star_loop] in H.
    + exists [], cur, caps. split; [exact H|].
      repeat split; cbn; try lia; try discriminate.
    + destruct (rmatch ml r1 cur caps _) as [res|] eqn:E.
      * injection H as ->.
        destruct (IH1 _ _ _ _ E) as (t1 & cur1 & caps1 & H1 & S1 & _ & _ & G1).
        destruct (List.length (snd cur1) <? List.length (snd cur))%nat;
          [|discriminate].
        destruct (IHf _ _ H1) as (t2 & cur2 & caps2 & H2 & S2 & _ & _ & G2).
        exists (t1 ++ t2), cur2, caps2. split; [exact H2|].
        unfold steps. cbn [min_len max_len groups].
        split; [rewrite S1, S2, app_assoc; reflexivity|].
        split; [lia|]. split; [discriminate|].
        intros n Hn. rewrite G2, G1 by exact Hn. reflexivity.
      * exists [], cur, caps. split; [exact H|].
        repeat split; cbn; try lia; try discriminate.
  - destruct (IH1 _ _ _ _ H) as (t1 & cur1 & caps1 & H1 & S1 & L1 & U1 & G1).
    eexists t1, cur1, _. split; [exact H1|].
    unfold steps. cbn [min_len max_len groups].
    split; [exact S1|]. split; [exact L1|]. split; [exact U1|].
    intros n' Hn. cbn [group].
    destruct (Nat.eqb_spec n n') as [->|_]; [exfalso; apply Hn; left; reflexivity|].
    apply G1. intro Hin. apply Hn. right; exact Hin.
  - destruct (at_bol ml cur); [|discriminate].
    exists [], cur, caps. split; [exact H|].
    repeat split; cbn; try lia; try (intros b E; injection E as <-; lia).
  - destruct (at_eol ml cur); [|discriminate].
    exists [], cur, caps. split; [exact H|].
    repeat split; cbn; try lia; try (intros b E; injection E as <-; lia).
Qed.

(** A group records the text that its pattern took. *)
Lemma rmatch_group (ml : bool) (n : nat) (r : regex) :
  forall cur caps k m,
    rmatch ml (Grp n r) cur caps k = Some m ->
    exists taken cur' caps',
      k cur' ((n, taken) :: caps') = Some m /\
      steps r cur caps taken cur' caps'.
Proof.
  intros cur caps k m H. cbn [rmatch] in H.
  destruct (rmatch_sound ml r _ _ _ _ H)
    as (taken & cur' & caps' & H1 & S1 & L1 & U1 & G1).
  exists taken, cur', caps'. split; [|repeat split; assumption].
  rewrite S1 in H1. rewrite length_app in H1.
  replace (List.length taken + List.length (snd cur')
           - List.length (snd cur'))%nat
    with (List.length taken) in H1 by lia.
  rewrite firstn_app, firstn_all, Nat.sub_diag, firstn_O, app_nil_r in H1.
  exact H1.
Qed.

Lemma rmatch_cat (ml : bool) (r1 r2 : regex) (cur : cursor) (caps : captures)
    (k : cursor -> captures -> option captures) :
  rmatch ml (Cat r1 r2) cur caps k
  = rmatch ml r1 cur caps (fun cur' caps' => rmatch ml r2 cur' caps' k).
Proof. reflexivity. Qed.

(** The first group of a markdown heading holds one to six characters. *)
Lemma markdown_level (ln : str) (m : captures) :
  re_match markdown_pattern ln = Some m -> 1 <= len (group 1 m) <= 6.
Proof.
  unfold re_match, markdown_pattern. cbn [Seq fold_right]. intro H.
  rewrite rmatch_cat in H.
  destruct (rmatch_sound _ _ _ _ _ _ H) as (t0 & cur0 & caps0 & H0 & _).
  rewrite rmatch_cat in H0.
  destruct (rmatch_group _ _ _ _ _ _ _ H0)
    as (taken & cur1 & caps1 & H1 & _ & Lmin & Lmax & _).
  destruct (rmatch_sound _ _ _ _ _ _ H1)
    as (t2 & cur2 & caps2 & H2 & _ & _ & _ & G2).
  unfold accept in H2. injection H2 as <-.
  rewrite G2 by (vm_compute; intros [E|[]]; discriminate E).
  cbn [group Nat.eqb].
  specialize (Lmax 6%nat eq_refl).
  change (min_len (Rep 1 6 (Lit "#"))) with 1%nat in Lmin.
  unfold len. lia.
Qed.

Lemma latex_line_levels (patterns : list (regex * Z)) (i : Z) (ln : str)
    (h : Header) :
  In h (latex_line patterns i ln) -> In (level h) (map snd patterns).
Proof.
  induction patterns as [|[pattern lvl] rest IH]; cbn [latex_line map snd In];
    [tauto|].
  destruct (re_search pattern ln); [|intro Hin; right; exact (IH Hin)].
  cbn [In]. intros [<-|Hin]; [left; reflexivity|right; exact (IH Hin)].
Qed.

Lemma book_line_levels (patterns : list (regex * Z)) (i : Z) (ln : str)
    (h : Header) :
  In h (book_line patterns i ln) -> In (level h) (map snd patterns).
Proof.
  induction patterns as [|[pattern lvl] rest IH]; cbn [book_line map snd In];
    [tauto|].
  destruct (re_match pattern (strip ln)); [|intro Hin; right; exact (IH Hin)].
  cbn [In]. intros [<-|[]]. left; reflexivity.
Qed.

Lemma scan_lines_in (body : Z -> str -> list Header) (lines : list str)
    (h : Header) :
  In h (scan_lines body lines) -> exists i ln, In h (body i ln).
Proof.
  unfold scan_lines. rewrite in_flat_map.
  intros ([i ln] & _ & Hin). exists i, ln. exact Hin.
Qed.

(** X15.  Every extracted header has a level between 1 and 6: the number of
    marks of a markdown heading, 1 to 3 for the latex and book formats, 1 or
    2 for any other. *)
Theorem header_levels (format_hint : string) (lines : list str) (h : Header)
    (H : In h (find_headers format_hint lines)) :
  1 <= level h <= 6 /\
  (format_hint <> "markdown"%string -> level h <= 3) /\
  (format_hint <> "markdown"%string -> format_hint <> "latex"%string ->
   format_hint <> "book"%string -> level h <= 2).
Proof.
  unfold find_headers in H.
  destruct (String.eqb_spec format_hint "markdown") as [Em|Em].
  - destruct (scan_lines_in _ _ _ H) as (i & ln & Hin).
    unfold markdown_line in Hin.
    destruct (re_match markdown_pattern ln) as [m|] eqn:E; [|destruct Hin].
    destruct Hin as [<-|[]]. cbn [level].
    pose proof (markdown_level ln m E).
    split; [lia|]. split; intros; congruence.
  - destruct (String.eqb_spec format_hint "latex") as [El|El].
    + destruct (scan_lines_in _ _ _ H) as (i & ln & Hin).
      apply latex_line_levels in Hin. cbn in Hin.
      split; [|split]; intros; try congruence;
        destruct Hin as [E|[E|[E|[]]]]; lia.
    + destruct (String.eqb_spec format_hint "book") as [Eb|Eb].
      * destruct (scan_lines_in _ _ _ H) as (i & ln & Hin).
        apply book_line_levels in Hin. cbn in Hin.
        split; [|split]; intros; try congruence;
          destruct Hin as [E|[E|[E|[]]]]; lia.
      * destruct (scan_lines_in _ _ _ H) as (i & ln & Hin).
        unfold plain_line in Hin. cbv zeta in Hin.
        match type of Hin with In h (if ?b then _ else _) =>
          destruct b end; [|destruct Hin].
        destruct Hin as [<-|[]]. cbn [level].
        destruct (isupper (strip ln)); repeat split; intros; lia.
Qed.

(** A heading of two marks. *)
Lemma header_levels_witness :
  In (mkHeader 1 2 (lit "Title")) (find_headers "markdown" [lit "## Title"]) /\
  1 <= 2 <= 6.
Proof.
  assert (H : In (mkHeader 1 2 (lit "Title"))
                (find_headers "markdown" [lit "## Title"]))
    by (left; reflexivity).
  split; [exact H|].
  exact (proj1 (header_levels "markdown" [lit "## Title"]
                  (mkHeader 1 2 (lit "Title")) H)).
Defined.

(** * Format detection *)

(** No space character is the mark ['#']. *)
Lemma space_not_hash (w : ascii) : isspace w = true -> Ascii.eqb "#" w = false.
Proof.
  intro H. destruct (Ascii.eqb_spec "#" w) as [<-|]; [discriminate H|reflexivity].
Qed.

(** One to six marks and a space at a line start are a match of the
    markdown probe. *)
Lemma probe_matches (prev : option ascii) (n : nat) (w : ascii) (post : str) :
  at_bol true (prev, repeat "#"%char n ++ w :: post) = true ->
  (1 <= n <= 6)%nat -> isspace w = true ->
  rmatch true markdown_probe (prev, repeat "#"%char n ++ w :: post) []
    accept = Some [].
Proof.
  intros Hb Hn Hw. pose proof (space_not_hash w Hw) as Hh.
  unfold markdown_probe, Rep, Lit, space.
  cbn [Seq fold_right rmatch times upto Nat.sub lit list_ascii_of_string map].
  rewrite Hb.
  destruct n as [|[|[|[|[|[|[|n]]]]]]]; try lia;
    cbn [repeat app];
    repeat (unfold Opt; cbn [rmatch snd]; rewrite ?Ascii.eqb_refl, ?Hh, ?Hw);
    reflexivity.
Qed.

(** A search that succeeds matched at some position of the text; the
    character read before it is the last one of what precedes. *)
Lemma search_found (ml : bool) (r : regex) (x : str) :
  forall (prev : option ascii) (m : captures),
  search_from ml r prev x = Some m ->
  exists pre y, x = pre ++ y /\
    rmatch ml r (last (map Some pre) prev, y) [] accept = Some m.
Proof.
  induction x as [|c tl IH]; intros prev m; cbn [search_from].
  - destruct (rmatch ml r _ _ accept) eqn:E; [|intro H; discriminate H].
    intros [= <-]. exists [], []. split; [reflexivity|exact E].
  - destruct (rmatch ml r _ _ accept) eqn:E.
    + intros [= <-]. exists [], (c :: tl). split; [reflexivity|exact E].
    + intro H. destruct (IH _ _ H) as (pre & y & -> & Hm).
      exists (c :: pre), y. split; [reflexivity|].
      destruct pre as [|d pre]; [exact Hm|].
      cbn [map] in *. rewrite last_cons by discriminate.
      rewrite (last_default _ prev (Some c)) by discriminate. exact Hm.
Qed.

(** A match at some position makes the search succeed, there or
    earlier. *)
Lemma search_hit (ml : bool) (r : regex) (pre y : str) :
  forall prev : option ascii,
  is_match (rmatch ml r (last (map Some pre) prev, y) [] accept) = true ->
  is_match (search_from ml r prev (pre ++ y)) = true.
Proof.
  induction pre as [|c pre IH]; intros prev H.
  - cbn [map last app] in *.
    destruct y; cbn [search_from];
      match type of H with is_match ?t = true => destruct t end;
      first [reflexivity|discriminate H].
  - cbn [app search_from].
    match goal with
    | |- is_match (match ?t with Some _ => _ | None => _ end) = true =>
        destruct t; [reflexivity|]
    end.
    apply IH. destruct pre as [|d pre]; [exact H|].
    cbn [map] in *. rewrite last_cons in H by discriminate.
    rewrite (last_default _ (Some c) prev) by discriminate. exact H.
Qed.

(** The positions where ['^'] holds under [re.MULTILINE]: the start of the
    text and after each newline. *)
Lemma line_start (pre y : str) :
  at_bol true (last (map Some pre) None, y) = true <->
  pre = [] \/ exists p, pre = p ++ [newline].
Proof.
  unfold at_bol. cbn [fst].
  destruct pre as [|c pre] using rev_ind.
  - cbn. split; [auto|reflexivity].
  - rewrite map_app, last_app_nonempty by discriminate. cbn [map last andb].
    split.
    + intro H. apply Ascii.eqb_eq in H. subst c. eauto.
    + intros [H|[p H]]; [destruct pre; discriminate H|].
      apply app_inj_tail in H. destruct H as [_ ->]. apply Ascii.eqb_refl.
Qed.

(** What an optional run of at most [n] marks consumes. *)
Lemma upto_hash (ml : bool) (n : nat) :
  forall (k : cursor -> captures -> option captures) (prev : option ascii)
         (x : str) (caps m : captures),
  rmatch ml (upto n (Lit "#")) (prev, x) caps k = Some m ->
  exists (j : nat) (prev' : option ascii) (rest : str),
    (j <= n)%nat /\ x = repeat "#"%char j ++ rest /\
    k (prev', rest) caps = Some m.
Proof.
  induction n as [|n IH]; intros k prev x caps m.
  - cbn [upto rmatch]. intro H. exists 0%nat, prev, x. auto.
  - cbn [upto]. unfold Opt. cbn [rmatch].
    match goal with
    | |- match ?t with Some _ => _ | None => _ end = _ -> _ =>
        destruct t as [res|] eqn:E
    end.
    + intros [= <-]. revert E. unfold Lit at 1.
      cbn [Seq fold_right rmatch lit list_ascii_of_string map snd].
      destruct x as [|c tl]; [discriminate|].
      destruct (Ascii.eqb_spec "#" c) as [<-|]; [|discriminate].
      intro E. apply IH in E. destruct E as (j & prev' & rest & Hj & -> & Hk).
      exists (S j), prev', rest. split; [lia|]. split; [reflexivity|exact Hk].
    + intro H. exists 0%nat, prev, x. split; [lia|]. split; [reflexivity|exact H].
Qed.

(** A match of the markdown probe reads one to six marks and a space at a
    line start. *)
Lemma probe_shape (prev : option ascii) (x : str) (m : captures) :
  rmatch true markdown_probe (prev, x) [] accept = Some m ->
  at_bol true (prev, x) = true /\
  exists (n : nat) (w : ascii) (post : str),
    (1 <= n <= 6)%nat /\ isspace w = true /\
    x = repeat "#"%char n ++ w :: post.
Proof.
  unfold markdown_probe, Rep. unfold Lit at 1.
  cbn [Seq fold_right rmatch times Nat.sub lit list_ascii_of_string map snd].
  destruct (at_bol true (prev, x)); [|discriminate].
  destruct x as [|c tl]; [discriminate|].
  destruct (Ascii.eqb_spec "#" c) as [<-|]; [|discriminate].
  intro H. apply upto_hash in H.
  destruct H as (j & prev' & rest & Hj & -> & Hk).
  split; [reflexivity|]. revert Hk. unfold space. cbn [rmatch snd].
  destruct rest as [|w post]; [discriminate|].
  destruct (isspace w) eqn:Hw; [|discriminate]. intros _.
  exists (S j), w, post. split; [lia|]. split; [exact Hw|reflexivity].
Qed.

(** X16 (lines 40-42): with the hint ['auto'] a document is taken for
    markdown exactly when some line starts with one to six ['#'] followed by
    a character of the class [\s], the no-break space and NEL among them;
    nothing else in the text matters, the latex and book probes are not
    consulted then. *)
Theorem detect_markdown (content : str) :
  detect_format content = "markdown"%string <->
  exists (pre : str) (n : nat) (w : ascii) (post : str),
    content = pre ++ repeat "#"%char n ++ w :: post /\
    (pre = [] \/ exists p, pre = p ++ [newline]) /\
    (1 <= n <= 6)%nat /\ isspace w = true.
Proof.
  unfold detect_format, re_search_multiline. split.
  - destruct (search_from true markdown_probe None content) as [m|] eqn:E.
    + intros _. apply search_found in E. destruct E as (pre & y & -> & Hm).
      apply probe_shape in Hm.
      destruct Hm as (Hb & n & w & post & Hn & Hw & ->).
      exists pre, n, w, post. split; [reflexivity|].
      split; [exact (proj1 (line_start pre _) Hb)|]. split; assumption.
    + cbn [is_match].
      destruct (is_match (search_from true latex_probe None content));
        [discriminate|].
      destruct (is_match (search_from true book_probe None content));
        discriminate.
  - intros (pre & n & w & post & -> & Hp & Hn & Hw).
    rewrite (search_hit true markdown_probe pre); [reflexivity|].
    rewrite probe_matches; [reflexivity| |exact Hn|exact Hw].
    apply (proj2 (line_start pre _)). exact Hp.
Qed.
